(** * VGA frame capture: a shallow embedding of [test/capture_images.py]

    The cocotb test bench samples the sync lines and the RGB332 colour
    word of a simulated VGA design once per clock edge, rebuilds a
    640x480 frame from the samples taken while both sync lines are high,
    and stores the frame as a plain-text PPM file.

    Python integers are modelled as [Z], the pixel list as a Rocq list,
    the simulator handle and the file system as explicit states that are
    threaded through the calls. *)

From Stdlib Require Import ZArith Lia Ascii String DecimalString.
From stdpp Require Import base tactics option list strings gmap.

Local Open Scope Z_scope.

(** ** Python built-ins used by the test bench *)

(** [len(l)] as a Python integer. *)
Definition len {A} (l : list A) : Z := Z.of_nat (length l).

(** ** The frame object: [class VGAFrameCapture] *)

Definition pixel : Type := Z * Z * Z.

Record VGAFrameCapture := mkFrame {
  width : Z;
  height : Z;
  pixels : list pixel
}.

(** [__init__(self, width=640, height=480)] *)
Definition init (width height : Z) : VGAFrameCapture :=
  {| width := width; height := height; pixels := [] |}.

Definition init_default : VGAFrameCapture := init 640 480.

(** Assignment to [self.pixels]. *)
Definition set_pixels (self : VGAFrameCapture) (ps : list pixel) : VGAFrameCapture :=
  {| width := width self; height := height self; pixels := ps |}.

(** [add_pixel(self, r, g, b)]: [//] is floor division, which is [Z.div]. *)
Definition add_pixel (self : VGAFrameCapture) (r g b : Z) : VGAFrameCapture :=
  let r8 := (r * 255) / 7 in
  let g8 := (g * 255) / 7 in
  let b8 := (b * 255) / 3 in
  set_pixels self (pixels self ++ [(r8, g8, b8)]).

(** ** The simulator handle

    [dut] is the cocotb handle of the design.  The test bench drives its
    inputs before it starts to sample and never afterwards, so within a
    session the outputs are a function of the number of clock edges seen
    so far: [pins d k] is what [dut.uo_out.value] and [dut.uio_out.value]
    read after the [k]-th rising edge.  Unresolved logic values (X, Z)
    are outside the model. *)

Record sample := mkSample { uo_out : Z; uio_out : Z }.

Record dut := mkDut {
  pins : nat -> sample;
  now : nat;
  ui_in : Z;
  uio_in : Z;
  ena : Z;
  rst_n : Z
}.

Definition set_ui_in (d : dut) (v : Z) : dut :=
  {| pins := pins d; now := now d; ui_in := v; uio_in := uio_in d;
     ena := ena d; rst_n := rst_n d |}.

Definition set_uio_in (d : dut) (v : Z) : dut :=
  {| pins := pins d; now := now d; ui_in := ui_in d; uio_in := v;
     ena := ena d; rst_n := rst_n d |}.

Definition set_ena (d : dut) (v : Z) : dut :=
  {| pins := pins d; now := now d; ui_in := ui_in d; uio_in := uio_in d;
     ena := v; rst_n := rst_n d |}.

Definition set_rst_n (d : dut) (v : Z) : dut :=
  {| pins := pins d; now := now d; ui_in := ui_in d; uio_in := uio_in d;
     ena := ena d; rst_n := v |}.

(** [await ClockCycles(dut.clk, n)]; [RisingEdge] is one cycle. *)
Definition ClockCycles (d : dut) (n : nat) : dut :=
  {| pins := pins d; now := (n + now d)%nat; ui_in := ui_in d;
     uio_in := uio_in d; ena := ena d; rst_n := rst_n d |}.

Definition RisingEdge (d : dut) : dut := ClockCycles d 1.

Definition uo_out_value (d : dut) : Z := uo_out (pins d (now d)).
Definition uio_out_value (d : dut) : Z := uio_out (pins d (now d)).

(** [value[i]]: bit [i] of a resolved logic vector, as 0 or 1. *)
Definition bit (v : Z) (i : Z) : Z := Z.b2z (Z.testbit v i).

(** ** [capture_frame] *)

(** One of the two wait loops,
    [while dut.uo_out.value[1] == level and timeout < 100000].
    The counter bounds the loop, so [100000 - timeout] iterations of
    fuel are never used up (see [wait_vsync_exit]). *)
Fixpoint wait_vsync_loop (level : Z) (fuel : nat) (d : dut) (timeout : Z) : dut * Z :=
  match fuel with
  | O => (d, timeout)
  | S fuel' =>
      if (bit (uo_out_value d) 1 =? level) && (timeout <? 100000)
      then wait_vsync_loop level fuel' (RisingEdge d) (timeout + 1)
      else (d, timeout)
  end.

Definition wait_vsync (level : Z) (d : dut) (timeout : Z) : dut * Z :=
  wait_vsync_loop level (Z.to_nat (100000 - timeout)) d timeout.

(** "Wait for frame sync": both loops share the counter. *)
Definition wait_frame_sync (d : dut) : dut * Z :=
  let timeout := 0 in
  let '(d, timeout) := wait_vsync 1 d timeout in
  wait_vsync 0 d timeout.

(** The body of the capture loop up to the [break] test. *)
Definition capture_tick (d : dut) (frame_capture : VGAFrameCapture)
  : dut * VGAFrameCapture :=
  let d := RisingEdge d in
  let hsync := bit (uo_out_value d) 0 in
  let vsync := bit (uo_out_value d) 1 in
  let r := Z.land (Z.shiftr (uo_out_value d) 2) 7 in
  let g := Z.land (Z.shiftr (uo_out_value d) 5) 7 in
  let b := Z.land (uio_out_value d) 3 in
  if (hsync =? 1) && (vsync =? 1)
  then (d, add_pixel frame_capture r g b)
  else (d, frame_capture).

(** [for _ in range(n): ...; if len(pixels) >= 640 * 480: break] *)
Fixpoint capture_loop (n : nat) (d : dut) (frame_capture : VGAFrameCapture)
  : dut * VGAFrameCapture :=
  match n with
  | O => (d, frame_capture)
  | S n' =>
      let '(d, frame_capture) := capture_tick d frame_capture in
      if len (pixels frame_capture) >=? 640 * 480
      then (d, frame_capture)
      else capture_loop n' d frame_capture
  end.

(** [while len(pixels) < 640 * 480: pixels.append((0, 0, 0))] *)
Fixpoint pad_loop (fuel : nat) (frame_capture : VGAFrameCapture) : VGAFrameCapture :=
  match fuel with
  | O => frame_capture
  | S fuel' =>
      if len (pixels frame_capture) <? 640 * 480
      then pad_loop fuel'
             (set_pixels frame_capture (pixels frame_capture ++ [(0, 0, 0)]))
      else frame_capture
  end.

Definition pad (frame_capture : VGAFrameCapture) : VGAFrameCapture :=
  pad_loop (Z.to_nat (640 * 480 - len (pixels frame_capture))) frame_capture.

(** [pixels[:640 * 480]] *)
Definition truncate (frame_capture : VGAFrameCapture) : VGAFrameCapture :=
  set_pixels frame_capture (take (Z.to_nat (640 * 480)) (pixels frame_capture)).

(** The part of [capture_frame] after the wait, with the tick budget
    of the [for] loop as a parameter. *)
Definition capture_pixels (budget : nat) (d : dut) (frame_capture : VGAFrameCapture)
  : dut * VGAFrameCapture :=
  let '(d, frame_capture) := capture_loop budget d frame_capture in
  (d, truncate (pad frame_capture)).

Definition capture_frame (d : dut) (mode scene : Z) (frame_capture : VGAFrameCapture)
  : dut * VGAFrameCapture :=
  let d := set_ui_in d (Z.lor (Z.shiftl scene 2) mode) in
  let d := ClockCycles d 100 in
  let '(d, _) := wait_frame_sync d in
  capture_pixels (Z.to_nat 500000) d frame_capture.

(** ** Exceptions and the file system

    [save_ppm] talks to the operating system through [os.path.dirname],
    [os.makedirs] and [open].  They are modelled on a POSIX directory
    tree without symbolic links, permissions or resource limits: a
    location is the list of names from a node up to the root, and a path
    is resolved one component at a time from the root (absolute path) or
    from the working directory. *)

Inductive exn :=
  | FileNotFoundError
  | FileExistsError
  | NotADirectoryError
  | IsADirectoryError
  | ZeroDivisionError.

Inductive result (A : Type) :=
  | Ok (a : A)
  | Raise (e : exn).
Arguments Ok {A} a.
Arguments Raise {A} e.

Module Os.

Inductive node :=
  | Dir
  | File (data : string).

Definition location := list string.

Record filesystem := mkFs {
  cwd : location;
  nodes : gmap (list string) node
}.

(** Computations that change the file system and may raise; an
    exception leaves the changes made so far in place. *)
Definition io (A : Type) : Type := filesystem -> filesystem * result A.

Definition ret {A} (a : A) : io A := fun fs => (fs, Ok a).

Definition raise {A} (e : exn) : io A := fun fs => (fs, Raise e).

Definition bind {A B} (m : io A) (k : A -> io B) : io B :=
  fun fs =>
    match m fs with
    | (fs', Ok a) => k a fs'
    | (fs', Raise e) => (fs', Raise e)
    end.

#[global] Instance io_ret : MRet io := @ret.
#[global] Instance io_bind : MBind io := fun A B k m => bind m k.

(** The root always exists. *)
Definition node_at (fs : filesystem) (loc : location) : option node :=
  match loc with
  | [] => Some Dir
  | _ => nodes fs !! loc
  end.

Definition put (fs : filesystem) (loc : location) (n : node) : filesystem :=
  {| cwd := cwd fs; nodes := <[loc := n]> (nodes fs) |}.

Definition is_slash (c : ascii) : bool := Ascii.eqb c "/".

(** [p.split('/')] *)
Fixpoint components (p : string) : list string :=
  match p with
  | EmptyString => [EmptyString]
  | String c p' =>
      if is_slash c then EmptyString :: components p'
      else match components p' with
           | x :: xs => String c x :: xs
           | [] => [String c EmptyString]
           end
  end.

Definition start (fs : filesystem) (p : string) : location :=
  match p with
  | String c _ => if is_slash c then [] else cwd fs
  | EmptyString => cwd fs
  end.

(** Following one component out of a directory. *)
Definition step (loc : location) (c : string) : location :=
  if String.eqb c "" || String.eqb c "." then loc
  else if String.eqb c ".." then tail loc
  else c :: loc.

(** Path resolution: every component is looked up in a directory;
    the node reached last is not inspected. *)
Fixpoint walk (fs : filesystem) (loc : location) (comps : list string)
  : result location :=
  match comps with
  | [] => Ok loc
  | c :: cs =>
      match node_at fs loc with
      | None => Raise FileNotFoundError
      | Some (File _) => Raise NotADirectoryError
      | Some Dir => walk fs (step loc c) cs
      end
  end.

(** [os.stat(p)], reduced to the kind of node found. *)
Definition stat (fs : filesystem) (p : string) : result node :=
  if String.eqb p "" then Raise FileNotFoundError
  else match walk fs (start fs p) (components p) with
       | Raise e => Raise e
       | Ok loc => match node_at fs loc with
                   | None => Raise FileNotFoundError
                   | Some n => Ok n
                   end
       end.

(** [os.path.isdir(p)] *)
Definition path_isdir (fs : filesystem) (p : string) : bool :=
  match stat fs p with
  | Ok Dir => true
  | _ => false
  end.

(** [p[:p.rfind('/') + 1]] *)
Fixpoint upto_last_slash (p : string) : string :=
  match p with
  | EmptyString => EmptyString
  | String c p' =>
      match upto_last_slash p' with
      | EmptyString => if is_slash c then String c EmptyString else EmptyString
      | h => String c h
      end
  end.

(** [s.rstrip('/')] *)
Fixpoint rstrip_slash (s : string) : string :=
  match s with
  | EmptyString => EmptyString
  | String c s' =>
      match rstrip_slash s' with
      | EmptyString => if is_slash c then EmptyString else String c EmptyString
      | t => String c t
      end
  end.

(** [s == '/' * len(s)] *)
Fixpoint all_slashes (s : string) : bool :=
  match s with
  | EmptyString => true
  | String c s' => is_slash c && all_slashes s'
  end.

(** [os.path.dirname(p)] of [posixpath]. *)
Definition path_dirname (p : string) : string :=
  let head := upto_last_slash p in
  if negb (String.eqb head "") && negb (all_slashes head)
  then rstrip_slash head
  else head.

(** Creating the directories of [comps] below [loc] as far as they
    are missing.  A file in the way is an error: [FileExistsError]
    when it is the leaf, [NotADirectoryError] otherwise. *)
Fixpoint make_path (loc : location) (comps : list string) : io unit := fun fs =>
  match node_at fs loc with
  | Some (File _) =>
      (fs, Raise (if forallb (String.eqb "") comps
                  then FileExistsError else NotADirectoryError))
  | found =>
      let fs := match found with
                | None => put fs loc Dir
                | _ => fs
                end in
      match comps with
      | [] => (fs, Ok tt)
      | c :: cs => make_path (step loc c) cs fs
      end
  end.

(** [os.makedirs(name, exist_ok=True)]: the leaf directory and every
    missing intermediate one are created, an existing directory is
    accepted; the empty path names nothing. *)
Definition makedirs (name : string) : io unit := fun fs =>
  if String.eqb name "" then (fs, Raise FileNotFoundError)
  else match node_at fs (start fs name) with
       | None => (fs, Raise FileNotFoundError)
       | Some (File _) => (fs, Raise NotADirectoryError)
       | Some Dir => make_path (start fs name) (components name) fs
       end.

(** [open(filename, 'w')]: the file is created or truncated; the
    handle is the location of the file. *)
Definition open_w (filename : string) : io location := fun fs =>
  if String.eqb filename "" then (fs, Raise FileNotFoundError)
  else match walk fs (start fs filename) (components filename) with
       | Raise e => (fs, Raise e)
       | Ok loc =>
           if String.eqb (List.last (components filename) "") ""
           then (fs, Raise IsADirectoryError)
           else match node_at fs loc with
                | Some Dir => (fs, Raise IsADirectoryError)
                | _ => (put fs loc (File ""), Ok loc)
                end
       end.

(** [f.write(s)] on a handle opened for writing. *)
Definition write (f : location) (s : string) : io unit := fun fs =>
  match node_at fs f with
  | Some (File data) => (put fs f (File (data +:+ s)), Ok tt)
  | _ => (fs, Ok tt)
  end.

(** What a reader finds at [p]. *)
Definition read (fs : filesystem) (p : string) : option string :=
  match stat fs p with
  | Ok (File data) => Some data
  | _ => None
  end.

End Os.

(** ** [save_ppm] *)

Definition nl : string := String (Ascii.ascii_of_nat 10) EmptyString.

(** [f'{n}'] for an integer. *)
Definition str (n : Z) : string := NilZero.string_of_int (Z.to_int n).

(** [a % b]: Python's remainder has the sign of the divisor, as
    [Z.modulo] has, and raises when the divisor is zero. *)
Definition py_mod (a b : Z) : Os.io Z :=
  if b =? 0 then Os.raise ZeroDivisionError else Os.ret (a mod b).

(** [for i, (r, g, b) in enumerate(self.pixels)], from index [i] on. *)
Fixpoint write_pixels (f : Os.location) (width : Z) (i : Z) (ps : list pixel)
  : Os.io unit :=
  match ps with
  | [] => Os.ret tt
  | (r, g, b) :: ps' =>
      Os.write f (str r +:+ " " +:+ str g +:+ " " +:+ str b +:+ " ");;
      m ← py_mod (i + 1) width;
      (if m =? 0 then Os.write f nl else Os.ret tt);;
      write_pixels f width (i + 1) ps'
  end.

(** [save_ppm(self, filename)].  The closing [print] goes to the
    console and is not part of the model. *)
Definition save_ppm (self : VGAFrameCapture) (filename : string) : Os.io unit :=
  Os.makedirs (Os.path_dirname filename);;
  f ← Os.open_w filename;
  Os.write f ("P3" +:+ nl);;
  Os.write f (str (width self) +:+ " " +:+ str (height self) +:+ nl);;
  Os.write f ("255" +:+ nl);;
  write_pixels f (width self) 0 (pixels self).

(** ** The capture sessions *)

(** The common shape of the five cocotb tests: reset, capture, save.
    They differ in mode, scene and output path only.  Log messages and
    the start of the clock generator leave no trace in the state. *)
Definition capture_session (mode scene : Z) (path : string)
  (d : dut) (fs : Os.filesystem) : dut * Os.filesystem * result unit :=
  let d := set_ena d 1 in
  let d := set_uio_in d 0 in
  let d := set_rst_n d 0 in
  let d := ClockCycles d 10 in
  let d := set_rst_n d 1 in
  let d := ClockCycles d 100 in
  let frame := init_default in
  let '(d, frame) := capture_frame d mode scene frame in
  let '(fs, r) := save_ppm frame path fs in
  (d, fs, r).

Definition capture_test_pattern := capture_session 0 0 "output/test_pattern.ppm".
Definition capture_sphere := capture_session 1 0 "output/sphere.ppm".
Definition capture_torus := capture_session 1 1 "output/torus.ppm".
Definition capture_kirby := capture_session 1 2 "output/kirby.ppm".
Definition capture_pokemon := capture_session 1 3 "output/pokemon.ppm".

(** ** [test/test.py]: [test_vga_signals] *)

(** [sum(1 for i in range(len(values) - 1) if values[i] != values[i + 1])] *)
Definition toggles (values : list Z) : Z :=
  len (filter (fun i => values !! i <> values !! S i)
         (seq 0 (length values - 1))).

(** [for _ in range(n): await RisingEdge; hsync_values.append(...);
    vsync_values.append(...)] *)
Fixpoint sample_sync (n : nat) (d : dut) (hsync_values vsync_values : list Z)
  : dut * (list Z * list Z) :=
  match n with
  | O => (d, (hsync_values, vsync_values))
  | S n' =>
      let d := RisingEdge d in
      sample_sync n' d (hsync_values ++ [bit (uo_out_value d) 0])
        (vsync_values ++ [bit (uo_out_value d) 1])
  end.

(** [test_vga_signals] has no assertion; what it computes are the two
    toggle counts that it logs, and they are the result here. *)
Definition test_vga_signals (d : dut) : dut * (Z * Z) :=
  let d := set_ena d 1 in
  let d := set_ui_in d 0 in
  let d := set_uio_in d 0 in
  let d := set_rst_n d 0 in
  let d := ClockCycles d 10 in
  let d := set_rst_n d 1 in
  let d := ClockCycles d 100 in
  let '(d, (hsync_values, vsync_values)) := sample_sync 1000 d [] [] in
  let hsync_toggles := toggles hsync_values in
  let vsync_toggles := toggles vsync_values in
  (d, (hsync_toggles, vsync_toggles)).

(** ** [test/test.py]: [test_modes] *)

(** How a cocotb test ends: it passes, or an [assert] fails. *)
Inductive verdict :=
  | Passed
  | AssertionError (msg : string).

(** The inner loop of [test_modes]:
    [for _ in range(n): await RisingEdge; rgb_values.add((r, g, b))]. *)
Fixpoint collect_rgb (n : nat) (d : dut) (rgb_values : gset (Z * Z * Z))
  : dut * gset (Z * Z * Z) :=
  match n with
  | O => (d, rgb_values)
  | S n' =>
      let d := RisingEdge d in
      let r := Z.land (Z.shiftr (uo_out_value d) 2) 7 in
      let g := Z.land (Z.shiftr (uo_out_value d) 5) 7 in
      let b := Z.land (uio_out_value d) 3 in
      collect_rgb n' d ({[ (r, g, b) ]} ∪ rgb_values)
  end.

Definition modes : list (Z * string) :=
  [(0, "Test Pattern"); (1, "Ray March - Sphere"); (2, "Debug Mode");
   (3, "Solid Color")].

(** [for mode_val, mode_name in modes]: reset with the mode, sample 100
    ticks, [assert len(rgb_values) > 0]. *)
Fixpoint test_modes_loop (ms : list (Z * string)) (d : dut) : dut * verdict :=
  match ms with
  | [] => (d, Passed)
  | (mode_val, mode_name) :: ms' =>
      let d := set_ena d 1 in
      let d := set_ui_in d mode_val in
      let d := set_uio_in d 0 in
      let d := set_rst_n d 0 in
      let d := ClockCycles d 10 in
      let d := set_rst_n d 1 in
      let d := ClockCycles d 100 in
      let '(d, rgb_values) := collect_rgb 100 d ∅ in
      if Z.of_nat (size rgb_values) >? 0
      then test_modes_loop ms' d
      else (d, AssertionError (mode_name +:+ " should produce output"))
  end.

Definition test_modes (d : dut) : dut * verdict := test_modes_loop modes d.

Definition empty_fs : Os.filesystem := {| Os.cwd := []; Os.nodes := ∅ |}.

(** ** Reference definitions

    What the specification says, written independently of the code
    above; the theorems below relate the two. *)

(** The 8-bit expansion of an [N]-bit channel,
    [floor(v * 255 / (2^N - 1))]. *)
Definition expand_spec (N v : Z) : Z := v * 255 / (2 ^ N - 1).

(** [q] is the floor of the rational number [a / b], for [b > 0]. *)
Definition is_floor (q a b : Z) : Prop := b * q <= a < b * (q + 1).

Definition pixel_le (p q : pixel) : Prop :=
  let '(r1, g1, b1) := p in
  let '(r2, g2, b2) := q in
  r1 <= r2 /\ g1 <= g2 /\ b1 <= b2.

Definition black : pixel := (0, 0, 0).

(** A tick is in the active region when both sync lines read 1. *)
Definition active (s : sample) : bool :=
  Z.testbit (uo_out s) 0 && Z.testbit (uo_out s) 1.

(** The RGB332 fields of a sample, expanded to 8 bits each. *)
Definition decode (s : sample) : pixel :=
  (expand_spec 3 (Z.land (Z.shiftr (uo_out s) 2) 7),
   expand_spec 3 (Z.land (Z.shiftr (uo_out s) 5) 7),
   expand_spec 2 (Z.land (uio_out s) 3)).

Definition sample_pixels (s : sample) : list pixel :=
  if active s then [decode s] else [].

(** The pixels of the active ticks among the [n] ticks that follow the
    present one, in the order of the ticks. *)
Definition sampled (d : dut) (n : nat) : list pixel :=
  flat_map (fun k => sample_pixels (pins d (k + now d)%nat)) (seq 1 n).

(** The handle after the setup and the wait phase of [capture_frame]. *)
Definition aligned (d : dut) (mode scene : Z) : dut :=
  fst (wait_frame_sync
         (ClockCycles (set_ui_in d (Z.lor (Z.shiftl scene 2) mode)) 100)).

(** A signal source that never leaves the blanking state. *)
Definition quiet : dut :=
  {| pins := fun _ => {| uo_out := 0; uio_out := 0 |};
     now := 0; ui_in := 0; uio_in := 0; ena := 0; rst_n := 0 |}.

(** A signal source whose output word counts the ticks: both sync
    lines read 1 at ticks 3, 7, 11, ... *)
Definition ramp : dut :=
  {| pins := fun k => {| uo_out := Z.of_nat k; uio_out := Z.of_nat k |};
     now := 0; ui_in := 0; uio_in := 0; ena := 0; rst_n := 0 |}.

(** The raster text.  Every pixel contributes [r g b ] and, at the
    0-based position [i], a line break when [i + 1] is a multiple of
    the width. *)
Definition concat_text (l : list string) : string := foldr String.append EmptyString l.

Definition triple_text (p : pixel) : string :=
  let '(r, g, b) := p in str r +:+ " " +:+ str g +:+ " " +:+ str b +:+ " ".

Definition cell_text (w : Z) (i : nat) (p : pixel) : string :=
  triple_text p +:+ (if (Z.of_nat i + 1) mod w =? 0 then nl else EmptyString).

Definition header_text (w h : Z) : string :=
  ("P3" +:+ nl) +:+ (str w +:+ " " +:+ str h +:+ nl) +:+ ("255" +:+ nl).

Definition body_text (w : Z) (ps : list pixel) : string :=
  concat_text (imap (cell_text w) ps).

Definition ppm_text (self : VGAFrameCapture) : string :=
  header_text (width self) (height self) +:+ body_text (width self) (pixels self).

(** What [save_ppm] puts into the file it has opened, and how it
    ends: with a width of zero the first pixel is written and the
    remainder test raises. *)
Definition written (self : VGAFrameCapture) : string * result unit :=
  match pixels self with
  | p :: _ =>
      if width self =? 0
      then (header_text (width self) (height self) +:+ triple_text p,
            Raise ZeroDivisionError)
      else (ppm_text self, Ok tt)
  | [] => (ppm_text self, Ok tt)
  end.

(** Every location from [loc] along [comps] holds a directory. *)
Fixpoint all_dirs (fs : Os.filesystem) (loc : Os.location) (comps : list string)
  : Prop :=
  Os.node_at fs loc = Some Os.Dir
  /\ match comps with
     | [] => True
     | c :: cs => all_dirs fs (Os.step loc c) cs
     end.

Fixpoint has_slash (p : string) : bool :=
  match p with
  | EmptyString => false
  | String c p' => Os.is_slash c || has_slash p'
  end.

(** The reset sequence at the head of every cocotb test. *)
Definition after_reset (d : dut) : dut :=
  ClockCycles (set_rst_n (ClockCycles (set_rst_n (set_uio_in (set_ena d 1) 0) 0) 10) 1) 100.

(** A pixel whose three channels are 8-bit values. *)
Definition pixel_8bit (p : pixel) : Prop :=
  let '(r, g, b) := p in 0 <= r <= 255 /\ 0 <= g <= 255 /\ 0 <= b <= 255.

(** The vsync line [j] ticks after the present one. *)
Definition vsync_at (d : dut) (j : nat) : Z := bit (uo_out (pins d (j + now d)%nat)) 1.

(** The packed mode and scene selector that [capture_frame] drives. *)
Definition selector (mode scene : Z) : Z := Z.lor (Z.shiftl scene 2) mode.

(** A source that shows white in every tick, with both sync lines high. *)
Definition white : dut :=
  {| pins := fun _ => {| uo_out := 255; uio_out := 3 |};
     now := 0; ui_in := 0; uio_in := 0; ena := 0; rst_n := 0 |}.

(** A source with vsync stuck high that shows white up to tick 253700
    and blanks the line from then on: after the wait has run out of
    budget, exactly half a frame of active samples is left to collect. *)
Definition half : dut :=
  {| pins := fun k => {| uo_out := if Z.of_nat k <=? 253700 then 255 else 2;
                         uio_out := 3 |};
     now := 0; ui_in := 0; uio_in := 0; ena := 0; rst_n := 0 |}.

(** The text of one raster row: its triples and a line break. *)
Definition row_text (row : list pixel) : string :=
  concat_text (triple_text <$> row) +:+ nl.

(** * Properties *)

(** ** The signal sampler *)

Lemma len_app {A} (l k : list A) : len (l ++ k) = len l + len k.
Proof. unfold len. rewrite length_app. lia. Qed.

Lemma len_snoc {A} (l : list A) (x : A) : len (l ++ [x]) = len l + 1.
Proof. rewrite len_app. reflexivity. Qed.

Lemma len_nonneg {A} (l : list A) : 0 <= len l.
Proof. unfold len. lia. Qed.

Lemma set_pixels_id fc : set_pixels fc (pixels fc) = fc.
Proof. by destruct fc. Qed.

Lemma set_pixels_twice fc ps qs : set_pixels (set_pixels fc ps) qs = set_pixels fc qs.
Proof. done. Qed.

Lemma add_pixel_pixels self r g b :
  pixels (add_pixel self r g b)
  = pixels self ++ [(expand_spec 3 r, expand_spec 3 g, expand_spec 2 b)].
Proof. reflexivity. Qed.

Lemma expand_spec_floor N v :
  0 < 2 ^ N - 1 -> is_floor (expand_spec N v) (v * 255) (2 ^ N - 1).
Proof.
  intros Hpos. unfold is_floor, expand_spec.
  pose proof (Z.mul_div_le (v * 255) _ Hpos).
  pose proof (Z.mul_succ_div_gt (v * 255) _ Hpos).
  lia.
Qed.

Lemma expand_spec_range N v :
  0 < 2 ^ N - 1 -> 0 <= v <= 2 ^ N - 1 -> 0 <= expand_spec N v <= 255.
Proof.
  intros Hpos Hv. unfold expand_spec. split.
  - apply Z.div_pos; lia.
  - apply Z.div_le_upper_bound; nia.
Qed.

Lemma expand_spec_mono N v w :
  0 < 2 ^ N - 1 -> v <= w -> expand_spec N v <= expand_spec N w.
Proof. intros Hpos Hvw. unfold expand_spec. apply Z.div_le_mono; lia. Qed.

(** C2: for r, g in 0..7 and b in 0..3, [add_pixel] appends exactly one
    pixel, whose channels are the floors of r*255/7, g*255/7 and b*255/3
    (each an 8-bit value), and leaves the rest of the frame alone;
    [add_pixel(7, 7, 3)] appends (255, 255, 255). *)
Theorem add_pixel_exact (self : VGAFrameCapture) (r g b : Z) :
  0 <= r <= 7 -> 0 <= g <= 7 -> 0 <= b <= 3 ->
  exists r8 g8 b8,
    add_pixel self r g b = set_pixels self (pixels self ++ [(r8, g8, b8)])
    /\ r8 = expand_spec 3 r /\ g8 = expand_spec 3 g /\ b8 = expand_spec 2 b
    /\ is_floor r8 (r * 255) 7 /\ is_floor g8 (g * 255) 7 /\ is_floor b8 (b * 255) 3
    /\ 0 <= r8 <= 255 /\ 0 <= g8 <= 255 /\ 0 <= b8 <= 255
    /\ pixels (add_pixel self 7 7 3) = pixels self ++ [(255, 255, 255)].
Proof.
  intros Hr Hg Hb.
  exists (expand_spec 3 r), (expand_spec 3 g), (expand_spec 2 b).
  split; [reflexivity|].
  repeat split; try reflexivity;
    try (apply (expand_spec_floor 3); reflexivity);
    try (apply (expand_spec_floor 2); reflexivity);
    try (apply (expand_spec_range 3); [reflexivity | simpl; lia]);
    try (apply (expand_spec_range 2); [reflexivity | simpl; lia]).
Qed.

Lemma add_pixel_exact_witness :
  exists r8 g8 b8,
    add_pixel init_default 5 2 1
    = set_pixels init_default (pixels init_default ++ [(r8, g8, b8)])
    /\ r8 = expand_spec 3 5 /\ g8 = expand_spec 3 2 /\ b8 = expand_spec 2 1
    /\ is_floor r8 (5 * 255) 7 /\ is_floor g8 (2 * 255) 7 /\ is_floor b8 (1 * 255) 3
    /\ 0 <= r8 <= 255 /\ 0 <= g8 <= 255 /\ 0 <= b8 <= 255
    /\ pixels (add_pixel init_default 7 7 3) = pixels init_default ++ [(255, 255, 255)].
Proof. apply (add_pixel_exact init_default 5 2 1); lia. Defined.

(** C8: the expansion done by [add_pixel] is monotonic in each channel,
    and exact at both ends: (0, 0, 0) gives (0, 0, 0) and (7, 7, 3), the
    largest 3-, 3- and 2-bit inputs, gives (255, 255, 255). *)
Theorem add_pixel_monotone (self : VGAFrameCapture) (r1 g1 b1 r2 g2 b2 : Z) :
  r1 <= r2 -> g1 <= g2 -> b1 <= b2 ->
  exists p1 p2,
    pixels (add_pixel self r1 g1 b1) = pixels self ++ [p1]
    /\ pixels (add_pixel self r2 g2 b2) = pixels self ++ [p2]
    /\ pixel_le p1 p2
    /\ pixels (add_pixel self 0 0 0) = pixels self ++ [(0, 0, 0)]
    /\ pixels (add_pixel self (2 ^ 3 - 1) (2 ^ 3 - 1) (2 ^ 2 - 1))
       = pixels self ++ [(255, 255, 255)].
Proof.
  intros Hr Hg Hb.
  exists (expand_spec 3 r1, expand_spec 3 g1, expand_spec 2 b1),
         (expand_spec 3 r2, expand_spec 3 g2, expand_spec 2 b2).
  repeat split; try reflexivity;
    solve [ apply (expand_spec_mono 3); [reflexivity | assumption]
          | apply (expand_spec_mono 2); [reflexivity | assumption] ].
Qed.

Lemma add_pixel_monotone_witness :
  exists p1 p2,
    pixels (add_pixel init_default 2 0 1) = pixels init_default ++ [p1]
    /\ pixels (add_pixel init_default 3 7 1) = pixels init_default ++ [p2]
    /\ pixel_le p1 p2
    /\ pixels (add_pixel init_default 0 0 0) = pixels init_default ++ [(0, 0, 0)]
    /\ pixels (add_pixel init_default (2 ^ 3 - 1) (2 ^ 3 - 1) (2 ^ 2 - 1))
       = pixels init_default ++ [(255, 255, 255)].
Proof. apply (add_pixel_monotone init_default 2 0 1 3 7 1); lia. Defined.

(** ** The simulator handle *)

Lemma ClockCycles_RisingEdge d n : ClockCycles (RisingEdge d) n = ClockCycles d (S n).
Proof. unfold RisingEdge, ClockCycles. simpl. f_equal. lia. Qed.

Lemma ClockCycles_0 d : ClockCycles d 0 = d.
Proof. by destruct d. Qed.

Lemma bit_eq_1 v i : (bit v i =? 1) = Z.testbit v i.
Proof. unfold bit. by destruct (Z.testbit v i). Qed.

Lemma bit_is_1 v i : bit v i = 1 <-> Z.testbit v i = true.
Proof. unfold bit. destruct (Z.testbit v i); simpl; split; congruence || lia. Qed.

(** ** The frame accumulator *)

Lemma capture_tick_eq d fc :
  capture_tick d fc
  = (RisingEdge d,
     set_pixels fc (pixels fc ++ sample_pixels (pins d (S (now d))))).
Proof.
  unfold capture_tick, sample_pixels, active, uo_out_value, uio_out_value.
  rewrite !bit_eq_1. simpl.
  destruct (_ && _).
  - reflexivity.
  - by rewrite app_nil_r, set_pixels_id.
Qed.

Lemma sampled_0 d : sampled d 0 = [].
Proof. reflexivity. Qed.

Lemma sampled_S_back d k :
  sampled d (S k) = sampled d k ++ sample_pixels (pins d (S k + now d)%nat).
Proof.
  unfold sampled. rewrite seq_S, flat_map_app. simpl. by rewrite app_nil_r.
Qed.

Lemma sampled_S_front d k :
  sampled d (S k)
  = sample_pixels (pins d (S (now d))) ++ sampled (RisingEdge d) k.
Proof.
  unfold sampled. simpl. f_equal.
  rewrite <- seq_shift, flat_map_concat_map, map_map, <- flat_map_concat_map.
  apply flat_map_ext. intros j. simpl. do 2 f_equal. lia.
Qed.

Lemma sampled_1 d : sampled d 1 = sample_pixels (pins d (S (now d))).
Proof. rewrite sampled_S_front. simpl. apply app_nil_r. Qed.

(** While the frame stays short of 640*480 pixels the loop runs on, and
    what it has appended after [n] ticks is [sampled d n]. *)
Lemma capture_loop_run n : forall d fc,
  (forall k, (1 <= k < n)%nat -> len (pixels fc ++ sampled d k) < 640 * 480) ->
  capture_loop n d fc = (ClockCycles d n, set_pixels fc (pixels fc ++ sampled d n)).
Proof.
  induction n as [|n IH]; intros d fc Hroom.
  - simpl. by rewrite ClockCycles_0, sampled_0, app_nil_r, set_pixels_id.
  - cbn [capture_loop]. rewrite capture_tick_eq.
    destruct n as [|n].
    + rewrite sampled_1. simpl capture_loop.
      by destruct (_ >=? _).
    + assert (H1 : len (pixels fc ++ sampled d 1) < 640 * 480) by (apply Hroom; lia).
      rewrite sampled_1 in H1.
      cbn [pixels set_pixels].
      destruct (Z.geb_spec (len (pixels fc ++ sample_pixels (pins d (S (now d)))))
                  (640 * 480)) as [Hfull|_]; [lia|].
      rewrite IH.
      * rewrite ClockCycles_RisingEdge. cbn [pixels set_pixels].
        by rewrite set_pixels_twice, <- app_assoc, <- sampled_S_front.
      * intros k Hk. cbn [pixels set_pixels].
        rewrite <- app_assoc, <- sampled_S_front. apply Hroom. lia.
Qed.

(** The loop with budget [k + j] is the loop with budget [k], continued
    for [j] more ticks unless the frame was full by then. *)
Lemma capture_loop_split k : forall j d fc,
  capture_loop (k + j) d fc
  = let '(dk, fk) := capture_loop k d fc in
    if (0 <? Z.of_nat k) && (len (pixels fk) >=? 640 * 480)
    then (dk, fk)
    else capture_loop j dk fk.
Proof.
  induction k as [|k IH]; intros j d fc.
  - reflexivity.
  - cbn [capture_loop Nat.add]. destruct (capture_tick d fc) as [d1 fc1].
    destruct (len (pixels fc1) >=? 640 * 480) eqn:Hfull.
    + rewrite Hfull. reflexivity.
    + rewrite IH. destruct (capture_loop k d1 fc1) as [dk fk] eqn:Hk.
      destruct k as [|k].
      * simpl in Hk. injection Hk as <- <-. rewrite Hfull. reflexivity.
      * reflexivity.
Qed.

Lemma capture_loop_pins n : forall d fc, pins (fst (capture_loop n d fc)) = pins d.
Proof.
  induction n as [|n IH]; intros d fc; [done|].
  cbn [capture_loop]. rewrite capture_tick_eq.
  destruct (_ >=? _); [done|]. by rewrite IH.
Qed.

Lemma capture_loop_dims n : forall d fc,
  width (snd (capture_loop n d fc)) = width fc
  /\ height (snd (capture_loop n d fc)) = height fc.
Proof.
  induction n as [|n IH]; intros d fc; [done|].
  cbn [capture_loop]. rewrite capture_tick_eq.
  destruct (_ >=? _); [done|]. by destruct (IH (RisingEdge d)
    (set_pixels fc (pixels fc ++ sample_pixels (pins d (S (now d)))))) as [-> ->].
Qed.

(** A loop that ends short of a full frame has used its whole budget. *)
Lemma capture_loop_short n : forall d fc,
  len (pixels (snd (capture_loop n d fc))) < 640 * 480 ->
  capture_loop n d fc = (ClockCycles d n, set_pixels fc (pixels fc ++ sampled d n)).
Proof.
  induction n as [|n IH]; intros d fc Hshort.
  - simpl. by rewrite ClockCycles_0, sampled_0, app_nil_r, set_pixels_id.
  - revert Hshort. cbn [capture_loop]. rewrite capture_tick_eq.
    destruct (Z.geb_spec (len (pixels (set_pixels fc
                (pixels fc ++ sample_pixels (pins d (S (now d)))))))
                (640 * 480)) as [Hfull|Hroom]; intros Hshort.
    + simpl in Hshort, Hfull. lia.
    + rewrite IH by exact Hshort.
      rewrite ClockCycles_RisingEdge. cbn [pixels set_pixels].
      by rewrite set_pixels_twice, <- app_assoc, <- sampled_S_front.
Qed.

(** The loop never reads more ticks than its budget. *)
Lemma capture_loop_budget n : forall d fc,
  (now (fst (capture_loop n d fc)) <= n + now d)%nat.
Proof.
  induction n as [|n IH]; intros d fc; [simpl; lia|].
  cbn [capture_loop]. rewrite capture_tick_eq.
  destruct (_ >=? _); [simpl; lia|].
  etrans; [apply IH|]. simpl. lia.
Qed.

(** ** Padding and truncation *)

Lemma pad_loop_eq fuel : forall fc,
  (Z.to_nat (640 * 480 - len (pixels fc)) <= fuel)%nat ->
  pad_loop fuel fc
  = set_pixels fc
      (pixels fc ++ replicate (Z.to_nat (640 * 480 - len (pixels fc))) black).
Proof.
  induction fuel as [|fuel IH]; intros fc Hfuel.
  - simpl. replace (Z.to_nat _) with 0%nat by lia.
    simpl. by rewrite app_nil_r, set_pixels_id.
  - cbn [pad_loop].
    destruct (Z.ltb_spec (len (pixels fc)) (640 * 480)) as [Hshort|Hfull].
    + rewrite IH; cbn [pixels set_pixels]; rewrite len_snoc; [|lia].
      rewrite set_pixels_twice, <- app_assoc. do 2 f_equal.
      replace (Z.to_nat (640 * 480 - len (pixels fc)))
        with (S (Z.to_nat (640 * 480 - (len (pixels fc) + 1)))) by lia.
      reflexivity.
    + replace (Z.to_nat _) with 0%nat by lia.
      simpl. by rewrite app_nil_r, set_pixels_id.
Qed.

Lemma pad_eq fc :
  pad fc
  = set_pixels fc
      (pixels fc ++ replicate (Z.to_nat (640 * 480 - len (pixels fc))) black).
Proof. unfold pad. by apply pad_loop_eq. Qed.

(** The padding loop leaves through its condition, whatever fuel it is
    given beyond the number of missing pixels. *)
Lemma pad_loop_fuel fuel fc :
  (Z.to_nat (640 * 480 - len (pixels fc)) <= fuel)%nat -> pad_loop fuel fc = pad fc.
Proof. intros H. by rewrite pad_eq, pad_loop_eq. Qed.

Lemma finalize_pixels fc :
  pixels (truncate (pad fc))
  = take (Z.to_nat (640 * 480))
      (pixels fc ++ replicate (Z.to_nat (640 * 480 - len (pixels fc))) black).
Proof. by rewrite pad_eq. Qed.

Lemma finalize_len fc : len (pixels (truncate (pad fc))) = 640 * 480.
Proof.
  rewrite finalize_pixels. unfold len.
  rewrite length_take, length_app, length_replicate.
  pose proof (len_nonneg (pixels fc)). unfold len in *. lia.
Qed.

Lemma finalize_short fc :
  len (pixels fc) < 640 * 480 ->
  pixels (truncate (pad fc))
  = pixels fc ++ replicate (Z.to_nat (640 * 480 - len (pixels fc))) black.
Proof.
  intros Hshort. rewrite finalize_pixels. apply take_ge.
  rewrite length_app, length_replicate. unfold len in *. lia.
Qed.

Lemma capture_frame_eq d mode scene fc :
  capture_frame d mode scene fc
  = capture_pixels (Z.to_nat 500000) (aligned d mode scene) fc.
Proof.
  unfold capture_frame, aligned.
  by destruct (wait_frame_sync _).
Qed.

Lemma capture_pixels_eq n d fc :
  capture_pixels n d fc
  = (fst (capture_loop n d fc), truncate (pad (snd (capture_loop n d fc)))).
Proof. unfold capture_pixels. by destruct (capture_loop n d fc). Qed.

(** ** The wait for frame sync *)

(** A wait loop returns the handle some [k] ticks later, with the
    counter advanced by [k]. *)
Lemma wait_vsync_loop_ticks level fuel : forall d timeout,
  exists k, (k <= fuel)%nat
    /\ wait_vsync_loop level fuel d timeout = (ClockCycles d k, timeout + Z.of_nat k).
Proof.
  induction fuel as [|fuel IH]; intros d timeout.
  - exists 0%nat. simpl. rewrite ClockCycles_0, Z.add_0_r. auto.
  - cbn [wait_vsync_loop]. destruct (_ && _).
    + destruct (IH (RisingEdge d) (timeout + 1)) as (k & Hk & ->).
      exists (S k). rewrite ClockCycles_RisingEdge. split; [lia|]. f_equal. lia.
    + exists 0%nat. rewrite ClockCycles_0, Z.add_0_r. split; [lia|done].
Qed.

(** With the fuel that [wait_vsync] provides, the loop is left because
    its condition fails, not because the fuel ran out. *)
Lemma wait_vsync_loop_exit level fuel : forall d timeout,
  (Z.to_nat (100000 - timeout) <= fuel)%nat ->
  let '(d', timeout') := wait_vsync_loop level fuel d timeout in
  (bit (uo_out_value d') 1 =? level) && (timeout' <? 100000) = false.
Proof.
  induction fuel as [|fuel IH]; intros d timeout Hfuel.
  - simpl. apply andb_false_intro2. apply Z.ltb_ge. lia.
  - cbn [wait_vsync_loop].
    destruct ((bit (uo_out_value d) 1 =? level) && (timeout <? 100000)) eqn:Hc.
    + apply IH. apply andb_true_iff in Hc as [_ Hlt%Z.ltb_lt]. lia.
    + exact Hc.
Qed.

Lemma wait_vsync_exit level d timeout :
  let '(d', timeout') := wait_vsync level d timeout in
  (bit (uo_out_value d') 1 =? level) && (timeout' <? 100000) = false.
Proof. apply wait_vsync_loop_exit. lia. Qed.

Lemma wait_vsync_loop_hold level fuel : forall d timeout,
  (forall t, bit (uo_out (pins d t)) 1 = level) ->
  fuel = Z.to_nat (100000 - timeout) ->
  timeout <= 100000 ->
  wait_vsync_loop level fuel d timeout = (ClockCycles d fuel, 100000).
Proof.
  induction fuel as [|fuel IH]; intros d timeout Hlevel Hfuel Hle.
  - simpl. rewrite ClockCycles_0. f_equal. lia.
  - cbn [wait_vsync_loop]. unfold uo_out_value. rewrite Hlevel, Z.eqb_refl.
    destruct (Z.ltb_spec timeout 100000) as [_|Hge]; [|lia].
    simpl. rewrite IH, ?ClockCycles_RisingEdge; auto; lia.
Qed.

Lemma wait_vsync_loop_skip level fuel d timeout :
  bit (uo_out_value d) 1 <> level \/ 100000 <= timeout ->
  wait_vsync_loop level fuel d timeout = (d, timeout).
Proof.
  intros Hskip. destruct fuel as [|fuel]; [done|].
  cbn [wait_vsync_loop].
  destruct (Z.eqb_spec (bit (uo_out_value d) 1) level),
    (Z.ltb_spec timeout 100000); simpl; try done.
  destruct Hskip; [done|lia].
Qed.

(** For every signal, the wait phase ends, and the ticks it has
    consumed are exactly what the shared counter says, at most 100000. *)
Lemma wait_frame_sync_ticks d :
  exists k, (k <= Z.to_nat 100000)%nat
    /\ wait_frame_sync d = (ClockCycles d k, Z.of_nat k).
Proof.
  unfold wait_frame_sync, wait_vsync.
  destruct (wait_vsync_loop_ticks 1 (Z.to_nat (100000 - 0)) d 0) as (k1 & Hk1 & ->).
  destruct (wait_vsync_loop_ticks 0 (Z.to_nat (100000 - (0 + Z.of_nat k1)))
              (ClockCycles d k1) (0 + Z.of_nat k1)) as (k2 & Hk2 & ->).
  exists (k1 + k2)%nat. split; [lia|].
  f_equal; [|lia]. unfold ClockCycles. simpl. f_equal. lia.
Qed.

(** A signal whose vsync line stays at [v] keeps one of the two loops
    running until the counter reaches 100000, and the other idle. *)
Lemma wait_frame_sync_stalled d v :
  (forall t, bit (uo_out (pins d t)) 1 = v) ->
  wait_frame_sync d = (ClockCycles d (Z.to_nat 100000), 100000).
Proof.
  intros Hv. unfold wait_frame_sync, wait_vsync.
  destruct (Z.eq_dec v 1) as [->|Hne].
  - assert (H1 : wait_vsync_loop 1 (Z.to_nat (100000 - 0)) d 0
                 = (ClockCycles d (Z.to_nat (100000 - 0)), 100000))
      by (by apply wait_vsync_loop_hold).
    rewrite H1. apply wait_vsync_loop_skip. right. lia.
  - assert (H1 : wait_vsync_loop 1 (Z.to_nat (100000 - 0)) d 0 = (d, 0)).
    { apply wait_vsync_loop_skip. left. unfold uo_out_value. by rewrite Hv. }
    rewrite H1. apply wait_vsync_loop_hold; [|done|lia].
    intros t. specialize (Hv t). unfold bit in *.
    destruct (Z.testbit _ 1); simpl in Hv |- *; [congruence|done].
Qed.

(** C6: when vsync never changes, the wait phase of [capture_frame]
    consumes exactly 100000 ticks, and the counter shared by the two
    loops stops at 100000; accumulation therefore starts 100100 ticks
    after the call. *)
Theorem wait_frame_sync_constant_vsync (d : dut) (mode scene : Z) :
  (forall t, bit (uo_out (pins d t)) 1 = bit (uo_out (pins d 0%nat)) 1) ->
  wait_frame_sync d = (ClockCycles d (Z.to_nat 100000), 100000)
  /\ now (fst (wait_frame_sync d)) = (Z.to_nat 100000 + now d)%nat
  /\ now (aligned d mode scene) = (Z.to_nat 100000 + (100 + now d))%nat.
Proof.
  intros Hconst. split; [|split].
  - by eapply wait_frame_sync_stalled.
  - by erewrite wait_frame_sync_stalled.
  - unfold aligned. by erewrite wait_frame_sync_stalled.
Qed.

Lemma wait_frame_sync_constant_vsync_witness :
  wait_frame_sync quiet = (ClockCycles quiet (Z.to_nat 100000), 100000)
  /\ now (fst (wait_frame_sync quiet)) = (Z.to_nat 100000 + now quiet)%nat
  /\ now (aligned quiet 0 0) = (Z.to_nat 100000 + (100 + now quiet))%nat.
Proof. apply (wait_frame_sync_constant_vsync quiet 0 0). intros t. reflexivity. Defined.

(** ** The finished frame *)

(** C1: whatever the signal, the initial frame and the tick budget of
    the loop, the pixel list that [capture_frame] leaves behind has
    exactly 640*480 = 307200 entries. *)
Theorem capture_frame_length (d : dut) (mode scene : Z) (fc : VGAFrameCapture) :
  (forall n, len (pixels (snd (capture_pixels n d fc))) = 307200)
  /\ len (pixels (snd (capture_frame d mode scene fc))) = 307200
  /\ length (pixels (snd (capture_frame d mode scene fc))) = Z.to_nat (640 * 480).
Proof.
  assert (Hn : forall n d', len (pixels (snd (capture_pixels n d' fc))) = 307200).
  { intros n d'. rewrite capture_pixels_eq. simpl. apply finalize_len. }
  split; [by auto|]. rewrite capture_frame_eq. split; [by auto|].
  specialize (Hn (Z.to_nat 500000) (aligned d mode scene)). unfold len in Hn. lia.
Qed.

Lemma snoc_neq {A} (l : list A) (x : A) : l ++ [x] <> l.
Proof.
  intros H. apply (f_equal length) in H. rewrite length_app in H. simpl in H. lia.
Qed.

(** C4: take a frame that is not full when the loop starts.  At tick
    [k + 1] of a loop with budget [n > k], the pixel decoded from the
    sample is appended if and only if hsync and vsync both read 1 and
    the frame was still short of 640*480 pixels; otherwise the frame is
    left as it was.  The states compared are those of the running loop:
    the loop with budget [n] is the one with budget [k], continued. *)
Theorem capture_loop_appends_iff_active (n : nat) (d : dut) (fc : VGAFrameCapture) :
  len (pixels fc) < 640 * 480 ->
  forall k, (k < n)%nat ->
    let before := snd (capture_loop k d fc) in
    let after := snd (capture_loop (S k) d fc) in
    let s := pins d (S k + now d)%nat in
    let cond := bit (uo_out s) 0 = 1 /\ bit (uo_out s) 1 = 1
                /\ len (pixels before) < 640 * 480 in
    capture_loop n d fc
    = (if len (pixels before) >=? 640 * 480 then capture_loop k d fc
       else capture_loop (n - k) (fst (capture_loop k d fc)) before)
    /\ (pixels after = pixels before ++ [decode s] <-> cond)
    /\ (pixels after = pixels before <-> ~ cond).
Proof.
  intros Hshort k Hk before after s cond.
  assert (Hsplit : forall j, capture_loop (k + j) d fc
            = if len (pixels before) >=? 640 * 480 then capture_loop k d fc
              else capture_loop j (fst (capture_loop k d fc)) before).
  { intros j. rewrite capture_loop_split. subst before.
    destruct (capture_loop k d fc) as [dk fk] eqn:Hloop. cbn [fst snd].
    destruct k as [|k]; [|done].
    simpl in Hloop. injection Hloop as <- <-.
    by destruct (Z.geb_spec (len (pixels fc)) (640 * 480)); [lia|]. }
  split.
  { rewrite <- Hsplit. f_equal. lia. }
  assert (Hafter : pixels after
            = if len (pixels before) >=? 640 * 480 then pixels before
              else pixels before ++ sample_pixels s).
  { subst after. replace (S k) with (k + 1)%nat by lia. rewrite Hsplit.
    destruct (Z.geb_spec (len (pixels before)) (640 * 480)) as [Hfull|Hroom]; [done|].
    subst before s. rewrite (capture_loop_short k d fc Hroom).
    cbn [fst snd capture_loop]. rewrite capture_tick_eq.
    by destruct (_ >=? _). }
  rewrite Hafter. subst cond. rewrite !bit_is_1.
  destruct (Z.geb_spec (len (pixels before)) (640 * 480)) as [Hfull|Hroom].
  - split; split; try done; try lia.
    intros H. by apply eq_sym, snoc_neq in H.
  - unfold sample_pixels, active.
    destruct (Z.testbit (uo_out s) 0), (Z.testbit (uo_out s) 1); simpl;
      rewrite ?app_nil_r; split; split; intros H; try done;
      try (by apply eq_sym, snoc_neq in H);
      try (by apply snoc_neq in H);
      try (exfalso; apply H; by auto);
      try (destruct H as (? & ? & ?); discriminate);
      try (intros (? & ? & ?); discriminate).
Qed.

Lemma capture_loop_appends_iff_active_witness :
  let before := snd (capture_loop 2 ramp init_default) in
  let after := snd (capture_loop 3 ramp init_default) in
  let s := pins ramp (3 + now ramp)%nat in
  let cond := bit (uo_out s) 0 = 1 /\ bit (uo_out s) 1 = 1
              /\ len (pixels before) < 640 * 480 in
  capture_loop 8 ramp init_default
  = (if len (pixels before) >=? 640 * 480 then capture_loop 2 ramp init_default
     else capture_loop (8 - 2) (fst (capture_loop 2 ramp init_default)) before)
  /\ (pixels after = pixels before ++ [decode s] <-> cond)
  /\ (pixels after = pixels before <-> ~ cond).
Proof.
  apply (capture_loop_appends_iff_active 8 ramp init_default); [reflexivity | lia].
Defined.

Lemma capture_pixels_short n d fc :
  len (pixels (snd (capture_loop n d fc))) < 640 * 480 ->
  pixels (snd (capture_loop n d fc)) = pixels fc ++ sampled d n
  /\ pixels (snd (capture_pixels n d fc))
     = pixels (snd (capture_loop n d fc))
       ++ replicate (Z.to_nat (640 * 480 - len (pixels (snd (capture_loop n d fc)))))
            black.
Proof.
  intros Hshort. split.
  - by rewrite (capture_loop_short n d fc Hshort).
  - rewrite capture_pixels_eq. cbn [snd]. by apply finalize_short.
Qed.

(** C5: if the accumulation loop of [capture_frame] ends with fewer than
    640*480 pixels, the finished frame consists of the collected pixels,
    which are the frame's earlier content followed by the decoded
    samples of all active ticks in tick order, and then of black pixels
    up to 640*480; a loop that ends with exactly half a frame leaves
    the second half black. *)
Theorem capture_frame_pads_black (d : dut) (mode scene : Z) (fc : VGAFrameCapture) :
  let d0 := aligned d mode scene in
  let acc := pixels (snd (capture_loop (Z.to_nat 500000) d0 fc)) in
  let final := pixels (snd (capture_frame d mode scene fc)) in
  len acc < 640 * 480 ->
  acc = pixels fc ++ sampled d0 (Z.to_nat 500000)
  /\ final = acc ++ replicate (Z.to_nat (640 * 480 - len acc)) black
  /\ take (length acc) final = acc
  /\ (forall i, (length acc <= i < Z.to_nat (640 * 480))%nat -> final !! i = Some black)
  /\ (len acc = 320 * 480 ->
      final = acc ++ replicate (Z.to_nat (320 * 480)) black).
Proof.
  intros d0 acc final Hshort.
  destruct (capture_pixels_short _ d0 fc Hshort) as [Hacc Hfinal].
  assert (Hfin : final = acc ++ replicate (Z.to_nat (640 * 480 - len acc)) black).
  { subst final acc. by rewrite capture_frame_eq. }
  split; [exact Hacc|]. split; [exact Hfin|]. split; [|split].
  - rewrite Hfin. by rewrite take_app_length.
  - intros i Hi. rewrite Hfin, lookup_app_r by lia.
    apply lookup_replicate_2. unfold len in *. lia.
  - intros Hhalf. rewrite Hfin, Hhalf. reflexivity.
Qed.

(** The source [half]: the wait runs out of budget, and 153600 active
    samples follow. *)
Lemma half_vsync d : pins d = pins half -> forall t, bit (uo_out (pins d t)) 1 = 1.
Proof.
  intros -> t. cbn [pins half uo_out]. by destruct (Z.of_nat t <=? 253700).
Qed.

Lemma half_active t : active (pins half t) = (Z.of_nat t <=? 253700).
Proof.
  unfold active. cbn [pins half uo_out]. by destruct (Z.of_nat t <=? 253700).
Qed.

Lemma half_decode t : Z.of_nat t <= 253700 -> decode (pins half t) = (255, 255, 255).
Proof.
  intros Ht. unfold decode. cbn [pins half uo_out uio_out].
  by destruct (Z.leb_spec (Z.of_nat t) 253700); [|lia].
Qed.

Lemma half_aligned d mode scene :
  pins d = pins half ->
  aligned d mode scene
  = ClockCycles (ClockCycles (set_ui_in d (Z.lor (Z.shiftl scene 2) mode)) 100)
      (Z.to_nat 100000).
Proof.
  intros Hpins. unfold aligned.
  pose proof (wait_frame_sync_stalled
                (ClockCycles (set_ui_in d (Z.lor (Z.shiftl scene 2) mode)) 100) 1)
    as Hwait.
  rewrite Hwait; [reflexivity|]. apply half_vsync. exact Hpins.
Qed.

Lemma half_sampled_len d mode scene k :
  pins d = pins half -> Z.of_nat (now d) <= 153600 ->
  len (sampled (aligned d mode scene) k)
  = Z.min (Z.of_nat k) (153600 - Z.of_nat (now d)).
Proof.
  intros Hpins Hnow. induction k as [|k IH]; [unfold len; simpl; lia|].
  rewrite sampled_S_back, len_app, IH. unfold sample_pixels.
  rewrite (half_aligned d mode scene Hpins) at 1 2.
  cbn [pins now ClockCycles set_ui_in]. rewrite Hpins, half_active.
  destruct (Z.leb_spec (Z.of_nat (S k + (Z.to_nat 100000 + (100 + now d))))
              253700); unfold len; cbn [length]; lia.
Qed.

Lemma half_loop d mode scene :
  pins d = pins half -> Z.of_nat (now d) <= 153600 ->
  capture_loop (Z.to_nat 500000) (aligned d mode scene) init_default
  = (ClockCycles (aligned d mode scene) (Z.to_nat 500000),
     set_pixels init_default
       (pixels init_default ++ sampled (aligned d mode scene) (Z.to_nat 500000))).
Proof.
  intros Hpins Hnow. apply capture_loop_run. intros k _.
  rewrite len_app, half_sampled_len by done.
  unfold len. cbn [pixels init_default init length]. lia.
Qed.

Lemma half_collected :
  len (pixels (snd (capture_loop (Z.to_nat 500000) (aligned half 0 0) init_default)))
  = 320 * 480.
Proof.
  rewrite half_loop by (done || (cbn [now half]; lia)). cbn [snd pixels set_pixels].
  rewrite len_app, half_sampled_len by (done || (cbn [now half]; lia)). unfold len.
  cbn [pixels init_default init length now half]. lia.
Qed.

Lemma capture_frame_pads_black_witness :
  len (pixels (snd (capture_loop (Z.to_nat 500000) (aligned half 0 0) init_default)))
  = 320 * 480
  /\ (let d0 := aligned half 0 0 in
      let acc := pixels (snd (capture_loop (Z.to_nat 500000) d0 init_default)) in
      let final := pixels (snd (capture_frame half 0 0 init_default)) in
      acc = pixels init_default ++ sampled d0 (Z.to_nat 500000)
      /\ final = acc ++ replicate (Z.to_nat (640 * 480 - len acc)) black
      /\ take (length acc) final = acc
      /\ (forall i, (length acc <= i < Z.to_nat (640 * 480))%nat ->
            final !! i = Some black)
      /\ (len acc = 320 * 480 ->
          final = acc ++ replicate (Z.to_nat (320 * 480)) black)).
Proof.
  split; [exact half_collected|].
  apply (capture_frame_pads_black half 0 0 init_default).
  rewrite half_collected. lia.
Defined.

(** ** The file system *)

Lemma str_app_assoc (a b c : string) : (a +:+ b) +:+ c = a +:+ (b +:+ c).
Proof.
  induction a as [|x a IH]; [reflexivity|].
  change (String x ((a +:+ b) +:+ c) = String x (a +:+ (b +:+ c))).
  by rewrite IH.
Qed.

Lemma str_app_nil_r (a : string) : a +:+ "" = a.
Proof.
  induction a as [|x a IH]; [reflexivity|].
  change (String x (a +:+ "") = String x a). by rewrite IH.
Qed.

Lemma put_put fs f n m : Os.put (Os.put fs f n) f m = Os.put fs f m.
Proof. unfold Os.put. simpl. by rewrite insert_insert_eq. Qed.

Lemma node_at_put_eq fs f n : f <> [] -> Os.node_at (Os.put fs f n) f = Some n.
Proof. intros Hf. destruct f; [done|]. simpl. apply lookup_insert_eq. Qed.

Lemma node_at_put_ne fs f n loc : loc <> f -> Os.node_at (Os.put fs f n) loc = Os.node_at fs loc.
Proof. intros Hne. destruct loc; [done|]. simpl. by apply lookup_insert_ne. Qed.

Lemma node_at_root fs : Os.node_at fs [] = Some Os.Dir.
Proof. done. Qed.

Lemma not_dir_not_root fs f : Os.node_at fs f <> Some Os.Dir -> f <> [].
Proof. intros H ->. by apply H. Qed.

(** A node that exists is left alone by [make_path], whatever the outcome. *)
Lemma make_path_keeps comps : forall loc fs fs1 r,
  Os.make_path loc comps fs = (fs1, r) ->
  Os.cwd fs1 = Os.cwd fs
  /\ forall l n, Os.node_at fs l = Some n -> Os.node_at fs1 l = Some n.
Proof.
  induction comps as [|c cs IH]; intros loc fs fs1 r; cbn [Os.make_path];
    destruct (Os.node_at fs loc) as [[|data]|] eqn:Hloc; intros Hrun;
    try (injection Hrun as <- <-; done).
  - injection Hrun as <- <-. split; [done|]. intros l n Hl.
    rewrite node_at_put_ne; [done|]. congruence.
  - by apply IH in Hrun.
  - apply IH in Hrun as [Hcwd Hkeep]. split; [done|]. intros l n Hl.
    apply Hkeep. rewrite node_at_put_ne; [done|]. congruence.
Qed.

Lemma make_path_all_dirs comps : forall loc fs fs1,
  Os.make_path loc comps fs = (fs1, Ok tt) -> all_dirs fs1 loc comps.
Proof.
  induction comps as [|c cs IH]; intros loc fs fs1; cbn [Os.make_path all_dirs];
    destruct (Os.node_at fs loc) as [[|data]|] eqn:Hloc; intros Hrun; try done.
  - by injection Hrun as <-.
  - injection Hrun as <-. split; [|done].
    apply node_at_put_eq. intros ->. by rewrite node_at_root in Hloc.
  - split; [|by eapply IH]. by apply (make_path_keeps _ _ _ _ _ Hrun).
  - split; [|by eapply IH]. apply (make_path_keeps _ _ _ _ _ Hrun).
    apply node_at_put_eq. intros ->. by rewrite node_at_root in Hloc.
Qed.

Lemma all_dirs_make_path comps : forall loc fs,
  all_dirs fs loc comps -> Os.make_path loc comps fs = (fs, Ok tt).
Proof.
  induction comps as [|c cs IH]; intros loc fs [Hloc Hrest];
    cbn [Os.make_path]; rewrite Hloc; [done|]. by apply IH.
Qed.

Lemma all_dirs_put_file comps : forall loc fs f data,
  Os.node_at fs f <> Some Os.Dir ->
  all_dirs fs loc comps -> all_dirs (Os.put fs f (Os.File data)) loc comps.
Proof.
  induction comps as [|c cs IH]; intros loc fs f data Hf [Hloc Hrest];
    cbn [all_dirs]; (split; [rewrite node_at_put_ne; [done|congruence]|]);
    [done|by apply IH].
Qed.

Lemma all_dirs_walk comps : forall loc fs,
  all_dirs fs loc comps ->
  exists loc', Os.walk fs loc comps = Ok loc' /\ Os.node_at fs loc' = Some Os.Dir.
Proof.
  induction comps as [|c cs IH]; intros loc fs [Hloc Hrest]; cbn [Os.walk].
  - eauto.
  - rewrite Hloc. by apply IH.
Qed.

Lemma make_path_idem comps : forall loc fs fs1 r,
  Os.make_path loc comps fs = (fs1, r) -> Os.make_path loc comps fs1 = (fs1, r).
Proof.
  induction comps as [|c cs IH]; intros loc fs fs1 r Hrun.
  - revert Hrun. cbn [Os.make_path].
    destruct (Os.node_at fs loc) as [[|data]|] eqn:Hloc; intros Hrun;
      injection Hrun as <- <-; rewrite ?Hloc; try done.
    rewrite node_at_put_eq; [done|]. intros ->. by rewrite node_at_root in Hloc.
  - revert Hrun. cbn [Os.make_path].
    destruct (Os.node_at fs loc) as [[|data]|] eqn:Hloc; intros Hrun.
    + assert (Os.node_at fs1 loc = Some Os.Dir) as ->
        by (by apply (make_path_keeps _ _ _ _ _ Hrun)).
      by eapply IH.
    + injection Hrun as <- <-. by rewrite Hloc.
    + assert (Os.node_at fs1 loc = Some Os.Dir) as ->.
      { apply (make_path_keeps _ _ _ _ _ Hrun).
        apply node_at_put_eq. intros ->. by rewrite node_at_root in Hloc. }
      by eapply IH.
Qed.

Lemma walk_put_file comps : forall loc fs f data loc',
  Os.node_at fs f <> Some Os.Dir ->
  Os.walk fs loc comps = Ok loc' ->
  Os.walk (Os.put fs f (Os.File data)) loc comps = Ok loc'.
Proof.
  induction comps as [|c cs IH]; intros loc fs f data loc' Hf; cbn [Os.walk]; [done|].
  destruct (Os.node_at fs loc) as [[|?]|] eqn:Hloc; try done.
  rewrite node_at_put_ne, Hloc by congruence. by apply IH.
Qed.

Lemma put_same fs f n : Os.node_at fs f = Some n -> f <> [] -> Os.put fs f n = fs.
Proof.
  intros Hn Hf. destruct fs as [c m], f as [|x f]; [done|].
  unfold Os.put. simpl in *. f_equal. by apply insert_id.
Qed.

Lemma start_cwd fs fs' p : Os.cwd fs' = Os.cwd fs -> Os.start fs' p = Os.start fs p.
Proof. intros H. unfold Os.start. by rewrite H. Qed.

Lemma file_not_root fs f data : Os.node_at fs f = Some (Os.File data) -> f <> [].
Proof. intros H ->. by rewrite node_at_root in H. Qed.

Lemma write_run fs f data s :
  Os.node_at fs f = Some (Os.File data) ->
  Os.write f s fs = (Os.put fs f (Os.File (data +:+ s)), Ok tt).
Proof. intros H. unfold Os.write. by rewrite H. Qed.

Ltac io_unfold := unfold mbind, Os.io_bind, Os.bind, Os.ret, Os.raise.

(** The writes of the pixel loop, for a width other than zero. *)
Lemma write_pixels_run ps : forall f w i fs data,
  w <> 0 ->
  Os.node_at fs f = Some (Os.File data) ->
  write_pixels f w (Z.of_nat i) ps fs
  = (Os.put fs f (Os.File (data +:+ concat_text (imap (fun j => cell_text w (i + j)) ps))),
     Ok tt).
Proof.
  induction ps as [|[[r g] b] ps IH]; intros f w i fs data Hw Hf.
  - cbn [write_pixels imap concat_text foldr]. unfold Os.ret.
    rewrite str_app_nil_r, put_same; eauto using file_not_root.
  - pose proof (file_not_root _ _ _ Hf) as Hroot.
    cbn [write_pixels]. io_unfold. rewrite (write_run _ _ _ _ Hf).
    unfold py_mod. destruct (Z.eqb_spec w 0) as [|_]; [done|]. unfold Os.ret.
    assert (Hnext : forall fs' data',
      Os.node_at fs' f = Some (Os.File data') ->
      write_pixels f w (Z.of_nat i + 1) ps fs'
      = (Os.put fs' f
           (Os.File (data' +:+ concat_text (imap ((fun j => cell_text w (i + j)) ∘ S) ps))),
         Ok tt)).
    { intros fs' data' Hf'. replace (Z.of_nat i + 1) with (Z.of_nat (S i)) by lia.
      rewrite (IH f w (S i) fs' data' Hw Hf').
      assert (Himap : imap (fun j => cell_text w (S i + j)) ps
                      = imap ((fun j => cell_text w (i + j)) ∘ S) ps).
      { apply imap_ext. intros j p _. unfold compose. by rewrite Nat.add_succ_r. }
      by rewrite Himap. }
    rewrite imap_cons. cbn [concat_text foldr].
    fold (concat_text (imap ((fun j => cell_text w (i + j)) ∘ S) ps)).
    unfold cell_text at 1. rewrite Nat.add_0_r.
    change (str r +:+ " " +:+ str g +:+ " " +:+ str b +:+ " ")
      with (triple_text (r, g, b)).
    destruct ((Z.of_nat i + 1) mod w =? 0).
    + rewrite (write_run _ _ (data +:+ triple_text (r, g, b)))
        by (by apply node_at_put_eq).
      rewrite put_put, (Hnext _ (((data +:+ triple_text (r, g, b)) +:+ nl)))
        by (by apply node_at_put_eq).
      by rewrite put_put, !str_app_assoc.
    + rewrite (Hnext _ (data +:+ triple_text (r, g, b))) by (by apply node_at_put_eq).
      by rewrite put_put, !str_app_assoc.
Qed.

(** With a width of zero the loop stops in its first pass. *)
Lemma write_pixels_zero f w i p ps fs data :
  w = 0 ->
  Os.node_at fs f = Some (Os.File data) ->
  write_pixels f w i (p :: ps) fs
  = (Os.put fs f (Os.File (data +:+ triple_text p)), Raise ZeroDivisionError).
Proof.
  intros -> Hf. destruct p as [[r g] b]. cbn [write_pixels]. io_unfold.
  by rewrite (write_run _ _ _ _ Hf).
Qed.

(** Everything [save_ppm] does once the file is open. *)
Lemma save_ppm_body self f fs :
  Os.node_at fs f = Some (Os.File "") ->
  (Os.write f ("P3" +:+ nl);;
   Os.write f (str (width self) +:+ " " +:+ str (height self) +:+ nl);;
   Os.write f ("255" +:+ nl);;
   write_pixels f (width self) 0 (pixels self)) fs
  = (Os.put fs f (Os.File (fst (written self))), snd (written self)).
Proof.
  intros Hf. pose proof (file_not_root _ _ _ Hf) as Hroot. io_unfold.
  rewrite (write_run _ _ _ _ Hf).
  rewrite (write_run _ _ ("" +:+ "P3" +:+ nl)) by (by apply node_at_put_eq).
  rewrite put_put.
  rewrite (write_run _ _ (("" +:+ "P3" +:+ nl)
            +:+ str (width self) +:+ " " +:+ str (height self) +:+ nl))
    by (by apply node_at_put_eq).
  rewrite put_put.
  set (hdr := (((_ +:+ _) +:+ _) +:+ _)).
  assert (Hhdr : hdr = header_text (width self) (height self)).
  { subst hdr. unfold header_text. change ("" +:+ "P3" +:+ nl) with ("P3" +:+ nl).
    by rewrite !str_app_assoc. }
  rewrite Hhdr. unfold written.
  destruct (pixels self) as [|p ps] eqn:Hps.
  - cbn [write_pixels fst snd]. unfold Os.ret, ppm_text. rewrite Hps.
    unfold body_text. cbn [imap concat_text foldr]. by rewrite str_app_nil_r.
  - destruct (Z.eqb_spec (width self) 0) as [Hz|Hnz].
    + rewrite (write_pixels_zero f _ 0 p ps _
                 (header_text (width self) (height self)) Hz)
        by (by apply node_at_put_eq).
      by rewrite put_put.
    + rewrite (write_pixels_run _ f (width self) 0%nat _ _ Hnz)
        by (by apply node_at_put_eq).
      rewrite put_put. cbn [fst snd]. unfold ppm_text. by rewrite Hps.
Qed.

Lemma open_w_ok filename fs fs' f :
  Os.open_w filename fs = (fs', Ok f) ->
  filename <> ""
  /\ Os.walk fs (Os.start fs filename) (Os.components filename) = Ok f
  /\ String.eqb (List.last (Os.components filename) "") "" = false
  /\ Os.node_at fs f <> Some Os.Dir
  /\ fs' = Os.put fs f (Os.File "").
Proof.
  unfold Os.open_w. destruct (String.eqb_spec filename ""); [intros; simplify_eq|].
  destruct (Os.walk _ _ _) as [loc|e]; [|intros; simplify_eq].
  destruct (String.eqb _ "") eqn:Hlast; [intros; simplify_eq|].
  destruct (Os.node_at fs loc) as [[|data]|] eqn:Hloc; intros H; simplify_eq;
    repeat split; congruence.
Qed.

Lemma open_w_raise filename fs fs' e :
  Os.open_w filename fs = (fs', Raise e) -> fs' = fs.
Proof.
  unfold Os.open_w. destruct (String.eqb filename ""); [intros; by simplify_eq|].
  destruct (Os.walk _ _ _) as [loc|?]; [|intros; by simplify_eq].
  destruct (String.eqb _ ""); [intros; by simplify_eq|].
  destruct (Os.node_at fs loc) as [[|data]|]; intros; by simplify_eq.
Qed.

(** Opening again a file that was written through [f] truncates it. *)
Lemma open_w_again filename fs fs' f data :
  Os.open_w filename fs = (fs', Ok f) ->
  Os.open_w filename (Os.put fs f (Os.File data))
  = (Os.put fs f (Os.File ""), Ok f).
Proof.
  intros (Hne & Hwalk & Hlast & Hnode & _)%open_w_ok.
  unfold Os.open_w. destruct (String.eqb_spec filename ""); [done|].
  rewrite (start_cwd fs) by done.
  rewrite (walk_put_file _ _ _ _ _ _ Hnode Hwalk), Hlast.
  rewrite node_at_put_eq by (by eapply not_dir_not_root).
  by rewrite put_put.
Qed.

Lemma makedirs_ok name fs fs1 :
  Os.makedirs name fs = (fs1, Ok tt) ->
  name <> "" /\ Os.cwd fs1 = Os.cwd fs
  /\ all_dirs fs1 (Os.start fs name) (Os.components name).
Proof.
  unfold Os.makedirs. destruct (String.eqb_spec name ""); [done|].
  destruct (Os.node_at fs _) as [[|data]|]; [|done..].
  intros Hrun. split; [done|]. split.
  - by apply (make_path_keeps _ _ _ _ _ Hrun).
  - by eapply make_path_all_dirs.
Qed.

Lemma makedirs_idem name fs fs1 r :
  Os.makedirs name fs = (fs1, r) -> Os.makedirs name fs1 = (fs1, r).
Proof.
  unfold Os.makedirs. destruct (String.eqb_spec name "").
  { intros H. by injection H as <- <-. }
  destruct (Os.node_at fs (Os.start fs name)) as [[|data]|] eqn:Hstart;
    try (intros H; injection H as <- <-; by rewrite Hstart).
  intros Hrun. destruct (make_path_keeps _ _ _ _ _ Hrun) as [Hcwd Hkeep].
  rewrite (start_cwd fs) by done. rewrite (Hkeep _ _ Hstart).
  by eapply make_path_idem.
Qed.

Lemma makedirs_put_file name fs f data :
  name <> "" ->
  all_dirs fs (Os.start fs name) (Os.components name) ->
  Os.node_at fs f <> Some Os.Dir ->
  Os.makedirs name (Os.put fs f (Os.File data)) = (Os.put fs f (Os.File data), Ok tt).
Proof.
  intros Hne Hdirs Hf. unfold Os.makedirs.
  destruct (String.eqb_spec name ""); [done|].
  rewrite (start_cwd fs) by done.
  pose proof (all_dirs_put_file _ _ _ _ data Hf Hdirs) as Hdirs'.
  assert (Hstart : Os.node_at (Os.put fs f (Os.File data)) (Os.start fs name)
                   = Some Os.Dir).
  { destruct (Os.components name); apply Hdirs'. }
  rewrite Hstart. by apply all_dirs_make_path.
Qed.

Lemma makedirs_isdir name fs fs1 :
  Os.makedirs name fs = (fs1, Ok tt) -> Os.path_isdir fs1 name = true.
Proof.
  intros (Hne & Hcwd & Hdirs)%makedirs_ok.
  unfold Os.path_isdir, Os.stat. destruct (String.eqb_spec name ""); [done|].
  rewrite (start_cwd fs) by done.
  destruct (all_dirs_walk _ _ _ Hdirs) as (loc & -> & ->). done.
Qed.

(** ** The raster writer *)

Lemma save_ppm_makedirs_raise self filename fs fs1 e :
  Os.makedirs (Os.path_dirname filename) fs = (fs1, Raise e) ->
  save_ppm self filename fs = (fs1, Raise e).
Proof. intros H. unfold save_ppm. io_unfold. by rewrite H. Qed.

Lemma save_ppm_open_raise self filename fs fs1 fs2 e :
  Os.makedirs (Os.path_dirname filename) fs = (fs1, Ok tt) ->
  Os.open_w filename fs1 = (fs2, Raise e) ->
  save_ppm self filename fs = (fs1, Raise e).
Proof.
  intros H1 H2. unfold save_ppm. io_unfold. rewrite H1, H2.
  by rewrite (open_w_raise _ _ _ _ H2).
Qed.

Lemma save_ppm_run self filename fs fs1 fs2 f :
  Os.makedirs (Os.path_dirname filename) fs = (fs1, Ok tt) ->
  Os.open_w filename fs1 = (fs2, Ok f) ->
  save_ppm self filename fs
  = (Os.put fs1 f (Os.File (fst (written self))), snd (written self)).
Proof.
  intros H1 H2. unfold save_ppm. io_unfold. rewrite H1, H2.
  apply open_w_ok in H2 as (_ & _ & _ & Hnode & ->).
  pose proof (not_dir_not_root _ _ Hnode) as Hroot.
  etrans; [apply save_ppm_body; by apply node_at_put_eq|].
  by rewrite put_put.
Qed.

Lemma read_after_open filename fs fs' f text :
  Os.open_w filename fs = (fs', Ok f) ->
  Os.read (Os.put fs f (Os.File text)) filename = Some text.
Proof.
  intros (Hne & Hwalk & _ & Hnode & _)%open_w_ok.
  unfold Os.read, Os.stat. destruct (String.eqb_spec filename ""); [done|].
  rewrite (start_cwd fs) by done.
  rewrite (walk_put_file _ _ _ _ _ _ Hnode Hwalk).
  by rewrite node_at_put_eq by (by eapply not_dir_not_root).
Qed.

Lemma written_nonzero self : width self <> 0 -> written self = (ppm_text self, Ok tt).
Proof.
  intros Hw. unfold written. destruct (pixels self); [done|].
  by destruct (Z.eqb_spec (width self) 0).
Qed.

Lemma written_ok self : snd (written self) = Ok tt -> fst (written self) = ppm_text self.
Proof.
  unfold written. destruct (pixels self); [done|].
  by destruct (width self =? 0).
Qed.

(** The three possible courses of [save_ppm]. *)
Lemma save_ppm_cases self filename fs :
  (exists fs1 e, Os.makedirs (Os.path_dirname filename) fs = (fs1, Raise e)
     /\ save_ppm self filename fs = (fs1, Raise e))
  \/ (exists fs1 e, Os.makedirs (Os.path_dirname filename) fs = (fs1, Ok tt)
     /\ Os.open_w filename fs1 = (fs1, Raise e)
     /\ save_ppm self filename fs = (fs1, Raise e))
  \/ (exists fs1 fs2 f, Os.makedirs (Os.path_dirname filename) fs = (fs1, Ok tt)
     /\ Os.open_w filename fs1 = (fs2, Ok f)
     /\ save_ppm self filename fs
        = (Os.put fs1 f (Os.File (fst (written self))), snd (written self))).
Proof.
  destruct (Os.makedirs (Os.path_dirname filename) fs) as [fs1 [[]|e]] eqn:H1.
  - destruct (Os.open_w filename fs1) as [fs2 [f|e]] eqn:H2.
    + right; right. exists fs1, fs2, f. eauto using save_ppm_run.
    + right; left. exists fs1, e.
      pose proof (open_w_raise _ _ _ _ H2) as ->.
      eauto using save_ppm_open_raise.
  - left. exists fs1, e. eauto using save_ppm_makedirs_raise.
Qed.

Lemma upto_last_slash_empty p : Os.upto_last_slash p = "" <-> has_slash p = false.
Proof.
  induction p as [|c p IH]; [done|]. cbn [Os.upto_last_slash has_slash].
  destruct (Os.upto_last_slash p) eqn:Hp.
  - destruct (Os.is_slash c); simpl; [done|]. tauto.
  - split; [done|]. intros [_ H]%orb_false_iff. apply IH in H. done.
Qed.

Lemma rstrip_slash_empty s : Os.rstrip_slash s = "" <-> Os.all_slashes s = true.
Proof.
  induction s as [|c s IH]; [done|]. cbn [Os.rstrip_slash Os.all_slashes].
  destruct (Os.rstrip_slash s) eqn:Hs.
  - destruct (Os.is_slash c); simpl; [tauto|]. done.
  - split; [done|]. intros [_ H]%andb_true_iff. apply IH in H. done.
Qed.

Lemma path_dirname_empty p : Os.path_dirname p = "" <-> has_slash p = false.
Proof.
  rewrite <- upto_last_slash_empty. unfold Os.path_dirname.
  destruct (String.eqb_spec (Os.upto_last_slash p) "") as [->|Hne]; [done|].
  simpl. destruct (Os.all_slashes (Os.upto_last_slash p)) eqn:Hall; [done|].
  simpl. split; [|done]. intros H%rstrip_slash_empty. congruence.
Qed.

(** C10: when the file name has no directory part, that is when
    [os.path.dirname] returns the empty string because the name holds
    no slash, [os.makedirs] raises [FileNotFoundError] and [save_ppm]
    ends there: the file system is as it was and nothing is written.
    [save_ppm] can therefore succeed only for a path with a directory
    part. *)
Theorem save_ppm_bare_filename (self : VGAFrameCapture) (filename : string)
    (fs : Os.filesystem) :
  Os.path_dirname filename = "" ->
  has_slash filename = false
  /\ Os.makedirs (Os.path_dirname filename) fs = (fs, Raise FileNotFoundError)
  /\ save_ppm self filename fs = (fs, Raise FileNotFoundError)
  /\ (forall (filename' : string) (fs' : Os.filesystem),
        snd (save_ppm self filename' fs') = Ok tt ->
        Os.path_dirname filename' <> "" /\ has_slash filename' = true).
Proof.
  intros Hdir.
  assert (Hraise : forall p fs0, Os.path_dirname p = "" ->
            Os.makedirs (Os.path_dirname p) fs0 = (fs0, Raise FileNotFoundError)).
  { intros p fs0 ->. reflexivity. }
  split; [by apply path_dirname_empty|]. split; [by apply Hraise|].
  split; [by apply save_ppm_makedirs_raise, Hraise|].
  intros filename' fs' Hok.
  assert (Hne : Os.path_dirname filename' <> "").
  { intros Hd. rewrite (save_ppm_makedirs_raise _ _ _ _ _ (Hraise _ fs' Hd)) in Hok.
    discriminate. }
  split; [done|]. destruct (has_slash filename') eqn:Hs; [done|].
  by apply path_dirname_empty in Hs.
Qed.

Lemma save_ppm_bare_filename_witness :
  has_slash "frame.ppm" = false
  /\ Os.makedirs (Os.path_dirname "frame.ppm") empty_fs
     = (empty_fs, Raise FileNotFoundError)
  /\ save_ppm init_default "frame.ppm" empty_fs = (empty_fs, Raise FileNotFoundError)
  /\ (forall (filename' : string) (fs' : Os.filesystem),
        snd (save_ppm init_default filename' fs') = Ok tt ->
        Os.path_dirname filename' <> "" /\ has_slash filename' = true).
Proof. apply (save_ppm_bare_filename init_default "frame.ppm" empty_fs). reflexivity. Defined.

(** Writing into the working directory would have been possible. *)
Example open_w_bare_filename :
  snd (Os.open_w "frame.ppm" empty_fs) = Ok ["frame.ppm"]
  /\ Os.read (fst (Os.open_w "frame.ppm" empty_fs)) "frame.ppm" = Some "".
Proof. split; reflexivity. Qed.

Lemma concat_text_app (l k : list string) :
  concat_text (l ++ k) = concat_text l +:+ concat_text k.
Proof.
  induction l as [|x l IH]; [reflexivity|].
  cbn [app concat_text foldr]. fold (concat_text (l ++ k)). fold (concat_text l).
  by rewrite IH, str_app_assoc.
Qed.

Lemma cell_text_inside w i p :
  0 <= Z.of_nat i + 1 < w -> cell_text w i p = triple_text p.
Proof.
  intros Hi. unfold cell_text. rewrite Z.mod_small by lia.
  destruct (Z.eqb_spec (Z.of_nat i + 1) 0); [lia|]. apply str_app_nil_r.
Qed.

Lemma cell_text_shift w (n i : nat) p :
  0 < w -> Z.of_nat n = w -> cell_text w (n + i) p = cell_text w i p.
Proof.
  intros Hw Hn. unfold cell_text. do 2 f_equal.
  replace (Z.of_nat (n + i) + 1) with (Z.of_nat i + 1 + 1 * w) by lia.
  by rewrite Z.mod_add by lia.
Qed.

(** A row shorter than the width is written without a line break. *)
Lemma body_text_short w row :
  len row < w -> body_text w row = concat_text (triple_text <$> row).
Proof.
  intros Hlen. unfold body_text. f_equal.
  rewrite <- imap_const. apply imap_ext. intros i p Hi.
  apply lookup_lt_Some in Hi. apply cell_text_inside. unfold len in Hlen. lia.
Qed.

(** A full row is followed by a line break, and the rows after it
    are laid out in the same way. *)
Lemma body_text_row w row rest :
  0 < w -> len row = w ->
  body_text w (row ++ rest) = concat_text (triple_text <$> row) +:+ nl +:+ body_text w rest.
Proof.
  intros Hw Hlen. unfold body_text. rewrite imap_app, concat_text_app.
  assert (Hrest : imap (fun n => cell_text w (length row + n)) rest
                  = imap (cell_text w) rest).
  { apply imap_ext. intros i p _. by apply cell_text_shift. }
  rewrite Hrest, <- str_app_assoc. f_equal.
  destruct row as [|x row _] using rev_ind.
  { unfold len in Hlen. simpl in Hlen. lia. }
  unfold len in Hlen. rewrite length_app in Hlen. simpl in Hlen.
  rewrite imap_app, fmap_app, !concat_text_app. cbn [imap fmap list_fmap concat_text foldr].
  rewrite !str_app_nil_r.
  fold (body_text w row). rewrite body_text_short by (unfold len; lia).
  rewrite str_app_assoc. f_equal.
  unfold cell_text. rewrite Nat.add_0_r.
  replace (Z.of_nat (length row) + 1) with w by lia.
  by rewrite Z.mod_same by lia.
Qed.

(** C7, as the code has it: for a width other than zero, [save_ppm]
    first has [os.makedirs] create the parent directory of the path;
    when that or opening the file raises, the exception is passed on
    and nothing is written; otherwise the parent is a directory and the
    file holds a line P3, a line with width and height, a line 255, and
    the r g b triples in list order, each value followed by a blank,
    with a line break after every triple whose position is a multiple
    of the width: for a positive width every full row of [width]
    triples ends in a line break and a shorter last row does not. *)
Theorem save_ppm_format (self : VGAFrameCapture) (filename : string)
    (fs : Os.filesystem) :
  width self <> 0 ->
  match Os.makedirs (Os.path_dirname filename) fs with
  | (fs1, Raise e) => save_ppm self filename fs = (fs1, Raise e)
  | (fs1, Ok _) =>
      Os.path_isdir fs1 (Os.path_dirname filename) = true
      /\ match Os.open_w filename fs1 with
         | (_, Raise e) => save_ppm self filename fs = (fs1, Raise e)
         | (_, Ok f) =>
             save_ppm self filename fs
             = (Os.put fs1 f (Os.File (ppm_text self)), Ok tt)
             /\ Os.read (fst (save_ppm self filename fs)) filename
                = Some (ppm_text self)
         end
  end
  /\ ppm_text self
     = header_text (width self) (height self)
       +:+ body_text (width self) (pixels self)
  /\ (forall row rest : list pixel,
        0 < width self -> len row = width self ->
        body_text (width self) (row ++ rest)
        = concat_text (triple_text <$> row) +:+ nl +:+ body_text (width self) rest)
  /\ (forall row : list pixel,
        len row < width self ->
        body_text (width self) row = concat_text (triple_text <$> row)).
Proof.
  intros Hw. split; [|split; [reflexivity|split]].
  - destruct (Os.makedirs (Os.path_dirname filename) fs) as [fs1 [[]|e]] eqn:H1.
    + split; [by eapply makedirs_isdir|].
      destruct (Os.open_w filename fs1) as [fs2 [f|e]] eqn:H2.
      * rewrite (save_ppm_run self _ _ _ _ _ H1 H2), (written_nonzero self Hw).
        split; [done|]. cbn [fst]. by eapply read_after_open.
      * by eapply save_ppm_open_raise.
    + by apply save_ppm_makedirs_raise.
  - intros row rest Hpos Hlen. by apply body_text_row.
  - intros row Hlen. by apply body_text_short.
Qed.

Lemma save_ppm_format_witness :
  Os.path_isdir (Os.put empty_fs ["out"] Os.Dir) (Os.path_dirname "out/frame.ppm") = true
  /\ save_ppm (mkFrame 2 2 [(255, 0, 0); (0, 255, 0); (0, 0, 255)])
       "out/frame.ppm" empty_fs
     = (Os.put (Os.put empty_fs ["out"] Os.Dir) ["frame.ppm"; "out"]
          (Os.File (ppm_text (mkFrame 2 2 [(255, 0, 0); (0, 255, 0); (0, 0, 255)]))),
        Ok tt)
  /\ Os.read (fst (save_ppm (mkFrame 2 2 [(255, 0, 0); (0, 255, 0); (0, 0, 255)])
                "out/frame.ppm" empty_fs)) "out/frame.ppm"
     = Some (ppm_text (mkFrame 2 2 [(255, 0, 0); (0, 255, 0); (0, 0, 255)])).
Proof.
  refine (proj1 (save_ppm_format (mkFrame 2 2 [(255, 0, 0); (0, 255, 0); (0, 0, 255)])
                   "out/frame.ppm" empty_fs _)).
  simpl. lia.
Defined.

(** The text of a small frame. *)
Example ppm_text_example :
  ppm_text (mkFrame 2 2 [(255, 0, 0); (0, 255, 0); (0, 0, 255)])
  = "P3" +:+ nl +:+ "2 2" +:+ nl +:+ "255" +:+ nl
    +:+ "255 0 0 0 255 0 " +:+ nl +:+ "0 0 255 ".
Proof. reflexivity. Qed.

(** C7 fails for a width of zero: the remainder [(i + 1) % 0] raises
    after the first triple, and the second pixel is never written. *)
Lemma save_ppm_zero_width :
  snd (save_ppm (mkFrame 0 1 [(1, 2, 3); (4, 5, 6)]) "out/frame.ppm" empty_fs)
  = Raise ZeroDivisionError
  /\ Os.read (fst (save_ppm (mkFrame 0 1 [(1, 2, 3); (4, 5, 6)])
                "out/frame.ppm" empty_fs)) "out/frame.ppm"
     = Some ("P3" +:+ nl +:+ "0 1" +:+ nl +:+ "255" +:+ nl +:+ "1 2 3 ").
Proof. split; reflexivity. Qed.

(** C9: saving the same frame again to the same path reproduces the
    outcome and the whole file system of the first call, so the file
    is byte-identical; and wherever a save succeeds, the file holds the
    same text, which depends on the frame alone. *)
Theorem save_ppm_idempotent (self : VGAFrameCapture) (filename : string)
    (fs : Os.filesystem) :
  save_ppm self filename (fst (save_ppm self filename fs)) = save_ppm self filename fs
  /\ Os.read (fst (save_ppm self filename (fst (save_ppm self filename fs)))) filename
     = Os.read (fst (save_ppm self filename fs)) filename
  /\ (forall (filename' : string) (fs' : Os.filesystem),
        snd (save_ppm self filename fs) = Ok tt ->
        snd (save_ppm self filename' fs') = Ok tt ->
        Os.read (fst (save_ppm self filename fs)) filename = Some (ppm_text self)
        /\ Os.read (fst (save_ppm self filename' fs')) filename'
           = Some (ppm_text self)).
Proof.
  assert (Hagain : save_ppm self filename (fst (save_ppm self filename fs))
                   = save_ppm self filename fs).
  { destruct (save_ppm_cases self filename fs)
      as [(fs1 & e & H1 & ->)|[(fs1 & e & H1 & H2 & ->)|(fs1 & fs2 & f & H1 & H2 & ->)]];
      cbn [fst].
    - by apply save_ppm_makedirs_raise, (makedirs_idem _ _ _ _ H1).
    - by apply (save_ppm_open_raise _ _ _ _ fs1), H2; apply (makedirs_idem _ _ _ _ H1).
    - destruct (makedirs_ok _ _ _ H1) as (Hne & Hcwd & Hdirs).
      destruct (open_w_ok _ _ _ _ H2) as (_ & _ & _ & Hnode & _).
      rewrite <- (start_cwd fs fs1) in Hdirs by done.
      rewrite (save_ppm_run self filename _ _ _ f
                 (makedirs_put_file _ _ _ _ Hne Hdirs Hnode)
                 (open_w_again _ _ _ _ _ H2)).
      by rewrite put_put. }
  split; [exact Hagain|]. split; [by rewrite Hagain|].
  assert (Hread : forall p fs0, snd (save_ppm self p fs0) = Ok tt ->
            Os.read (fst (save_ppm self p fs0)) p = Some (ppm_text self)).
  { intros p fs0.
    destruct (save_ppm_cases self p fs0)
      as [(fs1 & e & H1 & ->)|[(fs1 & e & H1 & H2 & ->)|(fs1 & fs2 & f & H1 & H2 & ->)]];
      cbn [fst snd]; try done.
    intros Hok%written_ok. rewrite Hok. by eapply read_after_open. }
  auto.
Qed.

Lemma save_ppm_idempotent_witness :
  save_ppm (mkFrame 2 1 [(1, 2, 3); (4, 5, 6)]) "out/a.ppm"
    (fst (save_ppm (mkFrame 2 1 [(1, 2, 3); (4, 5, 6)]) "out/a.ppm" empty_fs))
  = save_ppm (mkFrame 2 1 [(1, 2, 3); (4, 5, 6)]) "out/a.ppm" empty_fs
  /\ Os.read (fst (save_ppm (mkFrame 2 1 [(1, 2, 3); (4, 5, 6)]) "out/a.ppm" empty_fs))
       "out/a.ppm"
     = Some (ppm_text (mkFrame 2 1 [(1, 2, 3); (4, 5, 6)]))
  /\ Os.read (fst (save_ppm (mkFrame 2 1 [(1, 2, 3); (4, 5, 6)]) "b/c.ppm"
                (Os.put empty_fs ["b"] Os.Dir))) "b/c.ppm"
     = Some (ppm_text (mkFrame 2 1 [(1, 2, 3); (4, 5, 6)])).
Proof.
  pose proof (save_ppm_idempotent (mkFrame 2 1 [(1, 2, 3); (4, 5, 6)])
                "out/a.ppm" empty_fs) as (Hagain & _ & Hsame).
  split; [exact Hagain|].
  apply (Hsame "b/c.ppm" (Os.put empty_fs ["b"] Os.Dir)); reflexivity.
Defined.

(** ** Capture sessions *)

Lemma capture_session_eq mode scene path d fs :
  capture_session mode scene path d fs
  = (fst (capture_frame (after_reset d) mode scene init_default),
     fst (save_ppm (snd (capture_frame (after_reset d) mode scene init_default)) path fs),
     snd (save_ppm (snd (capture_frame (after_reset d) mode scene init_default)) path fs)).
Proof.
  unfold capture_session, after_reset.
  destruct (capture_frame _ mode scene init_default) as [d' frame]. cbn [fst snd].
  by destruct (save_ppm frame path fs).
Qed.

Lemma capture_frame_dims d mode scene fc :
  width (snd (capture_frame d mode scene fc)) = width fc
  /\ height (snd (capture_frame d mode scene fc)) = height fc.
Proof.
  rewrite capture_frame_eq, capture_pixels_eq. cbn [snd]. rewrite pad_eq.
  apply capture_loop_dims.
Qed.

Lemma capture_session_result mode scene path d fs :
  snd (capture_session mode scene path d fs)
  = snd (save_ppm (snd (capture_frame (after_reset d) mode scene init_default)) path fs).
Proof. by rewrite capture_session_eq. Qed.

Lemma capture_session_fs mode scene path d fs :
  snd (fst (capture_session mode scene path d fs))
  = fst (save_ppm (snd (capture_frame (after_reset d) mode scene init_default)) path fs).
Proof. by rewrite capture_session_eq. Qed.

Lemma capture_test_pattern_eq d fs :
  capture_test_pattern d fs = capture_session 0 0 "output/test_pattern.ppm" d fs.
Proof. reflexivity. Qed.

Lemma take_replicate_same {A} (n : nat) (x : A) : take n (replicate n x) = replicate n x.
Proof. by rewrite take_replicate, Nat.min_id. Qed.

(** An empty frame is finished as 307200 black pixels. *)
Lemma finalize_empty fc :
  pixels fc = [] ->
  truncate (pad fc) = set_pixels fc (replicate (Z.to_nat 307200) black).
Proof.
  intros Hempty. unfold truncate. rewrite pad_eq. cbn [pixels set_pixels].
  rewrite Hempty. cbn [app].
  change (640 * 480 - len []) with 307200. change (640 * 480) with 307200.
  rewrite take_replicate_same. apply set_pixels_twice.
Qed.

(** The quiet source never shows an active tick. *)
Lemma quiet_loop :
  snd (capture_loop (Z.to_nat 500000) (aligned (after_reset quiet) 0 0) init_default)
  = init_default.
Proof. vm_compute. reflexivity. Qed.

Lemma quiet_frame :
  snd (capture_frame (after_reset quiet) 0 0 init_default)
  = mkFrame 640 480 (replicate (Z.to_nat 307200) black).
Proof.
  rewrite capture_frame_eq, capture_pixels_eq. cbn [snd].
  rewrite quiet_loop. by rewrite finalize_empty.
Qed.

(** In an empty working directory the test pattern can be saved. *)
Lemma save_ppm_output self :
  width self <> 0 ->
  snd (save_ppm self "output/test_pattern.ppm" empty_fs) = Ok tt
  /\ Os.read (fst (save_ppm self "output/test_pattern.ppm" empty_fs))
       "output/test_pattern.ppm" = Some (ppm_text self).
Proof.
  intros Hw.
  assert (H1 : Os.makedirs (Os.path_dirname "output/test_pattern.ppm") empty_fs
               = (Os.put empty_fs ["output"] Os.Dir, Ok tt)) by reflexivity.
  assert (H2 : Os.open_w "output/test_pattern.ppm" (Os.put empty_fs ["output"] Os.Dir)
               = (Os.put (Os.put empty_fs ["output"] Os.Dir)
                    ["test_pattern.ppm"; "output"] (Os.File ""),
                  Ok ["test_pattern.ppm"; "output"])) by reflexivity.
  rewrite (save_ppm_run self _ _ _ _ _ H1 H2), (written_nonzero self Hw).
  split; [reflexivity|]. cbn [fst]. by rewrite (read_after_open _ _ _ _ _ H2).
Qed.

(** C3 fails: with both sync lines stuck at 0 the session ends
    normally, and the raster file exists and holds an all-black frame. *)
Lemma capture_test_pattern_stalled :
  snd (capture_test_pattern quiet empty_fs) = Ok tt
  /\ Os.read (snd (fst (capture_test_pattern quiet empty_fs))) "output/test_pattern.ppm"
     = Some (ppm_text (mkFrame 640 480 (replicate (Z.to_nat 307200) black))).
Proof.
  rewrite capture_test_pattern_eq. rewrite capture_session_fs.
  rewrite capture_session_result. rewrite quiet_frame.
  apply save_ppm_output. cbn [width]. lia.
Qed.

Lemma sampled_prefix d m n :
  (m <= n)%nat -> exists rest, sampled d n = sampled d m ++ rest.
Proof.
  induction 1 as [|n _ (rest & IH)].
  - exists []. by rewrite app_nil_r.
  - exists (rest ++ sample_pixels (pins d (S n + now d)%nat)).
    by rewrite sampled_S_back, IH, app_assoc.
Qed.

(** What the loop has collected is what the ticks it has read gave. *)
Lemma capture_loop_sampled n : forall d fc,
  exists m, (m <= n)%nat
    /\ pixels (snd (capture_loop n d fc)) = pixels fc ++ sampled d m.
Proof.
  induction n as [|n IH]; intros d fc.
  - exists 0%nat. simpl. rewrite sampled_0, app_nil_r. auto.
  - cbn [capture_loop]. rewrite capture_tick_eq. destruct (_ >=? _).
    + exists 1%nat. cbn [snd pixels set_pixels]. rewrite sampled_1. split; [lia|done].
    + destruct (IH (RisingEdge d)
        (set_pixels fc (pixels fc ++ sample_pixels (pins d (S (now d))))))
        as (m & Hm & ->).
      exists (S m). cbn [pixels set_pixels].
      rewrite <- app_assoc, <- sampled_S_front. split; [lia|done].
Qed.

(** The finished frame of a capture into an empty frame: the decoded
    active samples of the budget's ticks, then black, cut at 640*480. *)
Lemma capture_pixels_fresh n d :
  pixels (snd (capture_pixels n d init_default))
  = take (Z.to_nat 307200) (sampled d n ++ replicate (Z.to_nat 307200) black).
Proof.
  rewrite capture_pixels_eq. cbn [snd]. rewrite finalize_pixels.
  change (640 * 480) with 307200.
  destruct (Z.lt_ge_cases (len (pixels (snd (capture_loop n d init_default)))) 307200)
    as [Hshort|Hfull].
  - pose proof (capture_loop_short n d init_default Hshort) as Hloop.
    rewrite Hloop in Hshort |- *.
    cbn [snd pixels set_pixels init_default init app] in Hshort |- *.
    unfold len in Hshort |- *.
    rewrite !take_app_ge, !take_replicate by lia. do 2 f_equal. lia.
  - destruct (capture_loop_sampled n d init_default) as (m & Hm & Hacc).
    rewrite Hacc in Hfull |- *. cbn [pixels init_default init app] in Hfull |- *.
    destruct (sampled_prefix d m n Hm) as (rest & ->).
    unfold len in Hfull |- *.
    rewrite <- !app_assoc. rewrite !take_app_le by lia. done.
Qed.

Lemma capture_frame_fresh d mode scene :
  pixels (snd (capture_frame d mode scene init_default))
  = take (Z.to_nat 307200)
      (sampled (aligned d mode scene) (Z.to_nat 500000)
       ++ replicate (Z.to_nat 307200) black).
Proof. rewrite capture_frame_eq. apply capture_pixels_fresh. Qed.

Lemma wait_timed_out_ticks d :
  snd (wait_frame_sync d) = 100000 ->
  wait_frame_sync d = (ClockCycles d (Z.to_nat 100000), 100000).
Proof.
  destruct (wait_frame_sync_ticks d) as (k & _ & ->). cbn [snd].
  intros Hk. f_equal; [|done]. f_equal. lia.
Qed.

(** C3, as the code has it: when the vsync transition is not found
    within the budget, so that the wait ends with its counter at 100000
    (as it does when vsync never changes), nothing is raised and the
    session goes on.  Accumulation starts 100000 ticks after the wait
    began; [capture_frame] returns a 640 by 480 frame of 307200 pixels,
    which are the decoded active samples of the capture ticks in tick
    order followed by black, and all black where no active sample was
    collected; the session ends exactly as [save_ppm] does for that
    frame, and where the directory can be made and the file opened it
    succeeds and the raster file holds the frame.
    [capture_test_pattern] is the session for mode 0, scene 0 and path
    output/test_pattern.ppm. *)
Theorem capture_session_stalled (mode scene : Z) (path : string) (d : dut)
    (fs : Os.filesystem) :
  snd (wait_frame_sync
         (ClockCycles (set_ui_in (after_reset d) (Z.lor (Z.shiftl scene 2) mode)) 100))
  = 100000 ->
  now (aligned (after_reset d) mode scene)
  = (Z.to_nat 100000 + (100 + (100 + (10 + now d))))%nat
  /\ pixels (snd (capture_frame (after_reset d) mode scene init_default))
     = take (Z.to_nat 307200)
         (sampled (aligned (after_reset d) mode scene) (Z.to_nat 500000)
          ++ replicate (Z.to_nat 307200) black)
  /\ (sampled (aligned (after_reset d) mode scene) (Z.to_nat 500000) = [] ->
      pixels (snd (capture_frame (after_reset d) mode scene init_default))
      = replicate (Z.to_nat 307200) black)
  /\ len (pixels (snd (capture_frame (after_reset d) mode scene init_default))) = 307200
  /\ width (snd (capture_frame (after_reset d) mode scene init_default)) = 640
  /\ height (snd (capture_frame (after_reset d) mode scene init_default)) = 480
  /\ snd (capture_session mode scene path d fs)
     = snd (save_ppm (snd (capture_frame (after_reset d) mode scene init_default)) path fs)
  /\ snd (fst (capture_session mode scene path d fs))
     = fst (save_ppm (snd (capture_frame (after_reset d) mode scene init_default)) path fs)
  /\ (forall fs1 fs2 f,
        Os.makedirs (Os.path_dirname path) fs = (fs1, Ok tt) ->
        Os.open_w path fs1 = (fs2, Ok f) ->
        snd (capture_session mode scene path d fs) = Ok tt
        /\ Os.read (snd (fst (capture_session mode scene path d fs))) path
           = Some (ppm_text (snd (capture_frame (after_reset d) mode scene init_default))))
  /\ ((forall t, bit (uo_out (pins d t)) 1 = bit (uo_out (pins d 0%nat)) 1) ->
      snd (wait_frame_sync
             (ClockCycles (set_ui_in (after_reset d) (Z.lor (Z.shiftl scene 2) mode)) 100))
      = 100000).
Proof.
  intros Htimeout. rewrite capture_session_result, capture_session_fs.
  destruct (capture_frame_dims (after_reset d) mode scene init_default) as [Hw Hh].
  split.
  { unfold aligned. by rewrite (wait_timed_out_ticks _ Htimeout). }
  split; [apply capture_frame_fresh|].
  split.
  { intros Hnone. rewrite capture_frame_fresh, Hnone. cbn [app].
    apply take_replicate_same. }
  split.
  { rewrite capture_frame_eq, capture_pixels_eq. apply finalize_len. }
  split; [by rewrite Hw|]. split; [by rewrite Hh|].
  split; [done|]. split; [done|]. split.
  - intros fs1 fs2 f H1 H2.
    rewrite (save_ppm_run _ _ _ _ _ _ H1 H2), written_nonzero by (rewrite Hw; done).
    split; [done|]. cbn [fst]. by eapply read_after_open.
  - intros Hconst. by erewrite wait_frame_sync_stalled.
Qed.

Lemma half_timed_out d mode scene :
  pins d = pins half ->
  snd (wait_frame_sync
         (ClockCycles (set_ui_in d (Z.lor (Z.shiftl scene 2) mode)) 100))
  = 100000.
Proof.
  intros Hpins.
  pose proof (wait_frame_sync_stalled
                (ClockCycles (set_ui_in d (Z.lor (Z.shiftl scene 2) mode)) 100) 1)
    as Hwait.
  rewrite Hwait; [reflexivity|]. apply half_vsync. exact Hpins.
Qed.

Lemma half_session_samples :
  len (sampled (aligned (after_reset half) 0 0) (Z.to_nat 500000)) = 153490.
Proof.
  rewrite half_sampled_len; [|reflexivity|];
    cbn [now after_reset ClockCycles set_rst_n set_uio_in set_ena half]; lia.
Qed.

Lemma capture_session_stalled_witness :
  snd (wait_frame_sync
         (ClockCycles (set_ui_in (after_reset half) (Z.lor (Z.shiftl 0 2) 0)) 100))
  = 100000
  /\ len (sampled (aligned (after_reset half) 0 0) (Z.to_nat 500000)) = 153490
  /\ now (aligned (after_reset half) 0 0)
     = (Z.to_nat 100000 + (100 + (100 + (10 + now half))))%nat
  /\ pixels (snd (capture_frame (after_reset half) 0 0 init_default))
     = take (Z.to_nat 307200)
         (sampled (aligned (after_reset half) 0 0) (Z.to_nat 500000)
          ++ replicate (Z.to_nat 307200) black)
  /\ len (pixels (snd (capture_frame (after_reset half) 0 0 init_default))) = 307200
  /\ snd (capture_session 0 0 "output/test_pattern.ppm" half empty_fs) = Ok tt
  /\ Os.read (snd (fst (capture_session 0 0 "output/test_pattern.ppm" half empty_fs)))
       "output/test_pattern.ppm"
     = Some (ppm_text (snd (capture_frame (after_reset half) 0 0 init_default))).
Proof.
  pose proof (half_timed_out (after_reset half) 0 0 eq_refl) as Htimeout.
  pose proof (capture_session_stalled 0 0 "output/test_pattern.ppm" half empty_fs
                Htimeout)
    as (Hnow & Hpixels & _ & Hlen & _ & _ & _ & _ & Hwritten & _).
  split; [exact Htimeout|]. split; [exact half_session_samples|].
  split; [exact Hnow|]. split; [exact Hpixels|]. split; [exact Hlen|].
  apply (Hwritten (Os.put empty_fs ["output"] Os.Dir)
           (Os.put (Os.put empty_fs ["output"] Os.Dir)
              ["test_pattern.ppm"; "output"] (Os.File ""))
           ["test_pattern.ppm"; "output"]); reflexivity.
Defined.

(** * Further properties

    Properties beyond the numbered claims, of the same code and of the
    tests in [test/test.py]. *)

(** ** Further properties of the sampler *)

Lemma expand_spec_strict N v w :
  0 < 2 ^ N - 1 <= 255 -> v < w -> expand_spec N v < expand_spec N w.
Proof.
  intros Hpos Hvw.
  pose proof (expand_spec_floor N v ltac:(lia)) as [Hv1 Hv2].
  pose proof (expand_spec_floor N w ltac:(lia)) as [Hw1 Hw2].
  nia.
Qed.

Lemma expand_spec_inj N v w :
  0 < 2 ^ N - 1 <= 255 -> expand_spec N v = expand_spec N w -> v = w.
Proof.
  intros Hpos Heq.
  destruct (Z.lt_trichotomy v w) as [H|[H|H]]; [|done|];
    apply (expand_spec_strict N) in H; lia.
Qed.

Lemma expand_spec_8bit_iff N v :
  0 < 2 ^ N - 1 <= 255 ->
  0 <= expand_spec N v <= 255 <-> 0 <= v <= 2 ^ N - 1.
Proof.
  intros Hpos. split; [|by apply expand_spec_range; lia].
  intros Hrange.
  pose proof (expand_spec_floor N v ltac:(lia)) as [H1 H2]. nia.
Qed.

(** X1: the pixel that [add_pixel] appends has 8-bit channels exactly
    when the inputs fit their fields: red and green in 0..7, blue in
    0..3.  Nothing is clamped: an input out of range gives a channel
    out of range. *)
Theorem add_pixel_8bit_iff (self : VGAFrameCapture) (r g b : Z) :
  exists p : pixel,
    pixels (add_pixel self r g b) = pixels self ++ [p]
    /\ (pixel_8bit p <-> 0 <= r <= 7 /\ 0 <= g <= 7 /\ 0 <= b <= 3).
Proof.
  exists (expand_spec 3 r, expand_spec 3 g, expand_spec 2 b).
  split; [reflexivity|]. unfold pixel_8bit.
  rewrite !(expand_spec_8bit_iff 3), (expand_spec_8bit_iff 2) by (simpl; lia).
  simpl. lia.
Qed.

(** X2: the expansion loses nothing: [add_pixel] with different
    colour inputs appends different pixels, for all integers. *)
Theorem add_pixel_lossless (self : VGAFrameCapture) (r g b r' g' b' : Z) :
  r <> r' \/ g <> g' \/ b <> b' ->
  add_pixel self r g b <> add_pixel self r' g' b'.
Proof.
  intros Hne Heq. apply (f_equal pixels) in Heq.
  rewrite !add_pixel_pixels in Heq. apply app_inv_head in Heq.
  injection Heq as Hr Hg Hb.
  apply (expand_spec_inj 3) in Hr; [|simpl; lia].
  apply (expand_spec_inj 3) in Hg; [|simpl; lia].
  apply (expand_spec_inj 2) in Hb; [|simpl; lia].
  lia.
Qed.

Lemma add_pixel_lossless_witness :
  (7 <> 7 \/ 7 <> 6 \/ 3 <> 3)
  /\ add_pixel init_default 7 7 3 <> add_pixel init_default 7 6 3.
Proof.
  assert (H : 7 <> 7 \/ 7 <> 6 \/ 3 <> 3) by lia.
  split; [exact H|]. exact (add_pixel_lossless init_default 7 7 3 7 6 3 H).
Defined.

(** ** The selector and the tick budget of [capture_frame] *)

Lemma selector_unpack mode scene :
  0 <= mode < 4 ->
  Z.land (selector mode scene) 3 = mode /\ Z.shiftr (selector mode scene) 2 = scene.
Proof.
  intros Hmode. unfold selector.
  assert (Hdisj : Z.land (Z.shiftl scene 2) mode = 0).
  { apply Z.bits_inj'. intros i Hi. rewrite Z.land_spec, Z.bits_0.
    destruct (Z.lt_ge_cases i 2) as [Hlt|Hge].
    - by rewrite Z.shiftl_spec_low.
    - rewrite (Z.bits_above_log2 mode i); [apply andb_false_r|lia|].
      destruct (Z.eq_dec mode 0) as [->|Hnz]; [simpl; lia|].
      apply Z.log2_lt_pow2; [lia|]. apply Z.lt_le_trans with (2 ^ 2); [simpl; lia|].
      apply Z.pow_le_mono_r; lia. }
  assert (Hsum : Z.lor (Z.shiftl scene 2) mode = 4 * scene + mode).
  { pose proof (Z.add_lor_land (Z.shiftl scene 2) mode) as Hadd.
    rewrite Hdisj, Z.add_0_r in Hadd.
    rewrite Hadd, Z.shiftl_mul_pow2 by lia. change (2 ^ 2) with 4. lia. }
  rewrite Hsum. split.
  - change 3 with (Z.ones 2). rewrite Z.land_ones by lia.
    change (2 ^ 2) with 4. rewrite Z.add_comm, Z.mul_comm, Z.mod_add by lia.
    apply Z.mod_small. lia.
  - rewrite Z.shiftr_div_pow2 by lia. change (2 ^ 2) with 4.
    rewrite Z.add_comm, Z.mul_comm, Z.div_add by lia.
    rewrite Z.div_small by lia. lia.
Qed.

Lemma capture_loop_ticks n : forall d fc,
  exists k, (k <= n)%nat /\ (0 < n -> 0 < k)%nat
    /\ fst (capture_loop n d fc) = ClockCycles d k.
Proof.
  induction n as [|n IH]; intros d fc.
  - exists 0%nat. simpl. rewrite ClockCycles_0. split; [lia|]. split; [lia|done].
  - cbn [capture_loop]. rewrite capture_tick_eq. destruct (_ >=? _).
    + exists 1%nat. cbn [fst]. split; [lia|]. split; [lia|done].
    + destruct (IH (RisingEdge d)
        (set_pixels fc (pixels fc ++ sample_pixels (pins d (S (now d))))))
        as (k & Hk & _ & ->).
      exists (S k). rewrite ClockCycles_RisingEdge. split; [lia|]. split; [lia|done].
Qed.

Lemma capture_frame_fst d mode scene fc :
  fst (capture_frame d mode scene fc)
  = fst (capture_loop (Z.to_nat 500000) (aligned d mode scene) fc).
Proof. by rewrite capture_frame_eq, capture_pixels_eq. Qed.

(** X3: whatever the signal, [capture_frame] waits for at least 101 and
    at most 600100 clock edges (100 to settle, up to 100000 for sync,
    1 to 500000 to collect); it drives [ui_in] with the packed selector
    and touches no other input; for a mode in 0..3 the selector gives
    mode and scene back as its low two bits and the bits above. *)
Theorem capture_frame_ticks (d : dut) (mode scene : Z) (fc : VGAFrameCapture) :
  (exists k : nat,
      101 <= Z.of_nat k <= 600100
      /\ fst (capture_frame d mode scene fc)
         = ClockCycles (set_ui_in d (selector mode scene)) k)
  /\ ui_in (fst (capture_frame d mode scene fc)) = selector mode scene
  /\ (0 <= mode < 4 ->
      Z.land (ui_in (fst (capture_frame d mode scene fc))) 3 = mode
      /\ Z.shiftr (ui_in (fst (capture_frame d mode scene fc))) 2 = scene).
Proof.
  assert (Hticks : exists k : nat,
      101 <= Z.of_nat k <= 600100
      /\ fst (capture_frame d mode scene fc)
         = ClockCycles (set_ui_in d (selector mode scene)) k).
  { rewrite capture_frame_fst. unfold aligned. fold (selector mode scene).
    destruct (wait_frame_sync_ticks
                (ClockCycles (set_ui_in d (selector mode scene)) 100))
      as (kw & Hkw & ->). cbn [fst].
    destruct (capture_loop_ticks (Z.to_nat 500000)
                (ClockCycles (ClockCycles (set_ui_in d (selector mode scene)) 100) kw) fc)
      as (kc & Hkc & Hpos & ->).
    exists (kc + (kw + 100))%nat. split; [lia|].
    unfold ClockCycles. simpl. f_equal. lia. }
  split; [exact Hticks|].
  destruct Hticks as (k & _ & Hk).
  assert (Hui : ui_in (fst (capture_frame d mode scene fc)) = selector mode scene)
    by (by rewrite Hk).
  split; [exact Hui|]. intros Hmode. rewrite Hui. by apply selector_unpack.
Qed.

Lemma capture_frame_ticks_witness :
  Z.land (ui_in (fst (capture_frame quiet 1 3 init_default))) 3 = 1
  /\ Z.shiftr (ui_in (fst (capture_frame quiet 1 3 init_default))) 2 = 3.
Proof.
  apply (proj2 (proj2 (capture_frame_ticks quiet 1 3 init_default))). lia.
Defined.

(** ** Further properties of the frame accumulator *)

Lemma len_sampled_S d k :
  len (sampled d (S k))
  = len (sampled d k) + (if active (pins d (S k + now d)%nat) then 1 else 0).
Proof.
  rewrite sampled_S_back, len_app. unfold sample_pixels.
  by destruct (active _).
Qed.

Lemma len_sampled_mono d k m : (k <= m)%nat -> len (sampled d k) <= len (sampled d m).
Proof.
  induction 1 as [|m _ IH]; [lia|]. rewrite len_sampled_S.
  destruct (active _); lia.
Qed.

(** The loop stops at the first tick after which the frame is full. *)
Lemma capture_loop_stop n m d fc :
  (1 <= m <= n)%nat ->
  (forall k, (1 <= k < m)%nat -> len (pixels fc ++ sampled d k) < 640 * 480) ->
  640 * 480 <= len (pixels fc ++ sampled d m) ->
  capture_loop n d fc = (ClockCycles d m, set_pixels fc (pixels fc ++ sampled d m)).
Proof.
  intros Hm Hroom Hfull.
  replace n with (m + (n - m))%nat by lia.
  rewrite capture_loop_split, (capture_loop_run m d fc Hroom). cbn [pixels set_pixels].
  destruct (Z.ltb_spec 0 (Z.of_nat m)); [|lia].
  by destruct (Z.geb_spec (len (pixels fc ++ sampled d m)) (640 * 480)); [|lia].
Qed.

Lemma finalize_exact fc :
  len (pixels fc) = 640 * 480 -> pixels (truncate (pad fc)) = pixels fc.
Proof.
  intros Hlen. rewrite finalize_pixels, Hlen, Z.sub_diag. cbn [Z.to_nat replicate].
  rewrite app_nil_r. apply take_ge. unfold len in Hlen. lia.
Qed.

Lemma aligned_pins d mode scene : pins (aligned d mode scene) = pins d.
Proof.
  unfold aligned.
  by destruct (wait_frame_sync_ticks
                 (ClockCycles (set_ui_in d (Z.lor (Z.shiftl scene 2) mode)) 100))
    as (k & _ & ->).
Qed.

(** X4: when the [m]-th tick of the capture loop brings the frame to
    exactly 640*480 pixels, [capture_frame] stops at that tick, reads
    no further sample, and the finished frame is the earlier content
    followed by the decoded active samples of those [m] ticks: nothing
    is padded and nothing is cut. *)
Theorem capture_frame_full (d : dut) (mode scene : Z) (fc : VGAFrameCapture) (m : nat) :
  (1 <= m <= Z.to_nat 500000)%nat ->
  len (pixels fc ++ sampled (aligned d mode scene) (Nat.pred m)) < 640 * 480 ->
  len (pixels fc ++ sampled (aligned d mode scene) m) = 640 * 480 ->
  fst (capture_frame d mode scene fc) = ClockCycles (aligned d mode scene) m
  /\ pixels (snd (capture_frame d mode scene fc))
     = pixels fc ++ sampled (aligned d mode scene) m.
Proof.
  intros Hm Hbefore Hfull.
  assert (Hloop : capture_loop (Z.to_nat 500000) (aligned d mode scene) fc
            = (ClockCycles (aligned d mode scene) m,
               set_pixels fc (pixels fc ++ sampled (aligned d mode scene) m))).
  { apply capture_loop_stop; [done| |lia].
    intros k Hk. rewrite len_app in *.
    pose proof (len_sampled_mono (aligned d mode scene) k (Nat.pred m)). lia. }
  rewrite capture_frame_eq, capture_pixels_eq, Hloop. cbn [fst snd].
  split; [done|]. by rewrite finalize_exact.
Qed.

Lemma sampled_constant d p :
  (forall t, active (pins d t) = true /\ decode (pins d t) = p) ->
  forall k, sampled d k = replicate k p.
Proof.
  intros Hp k. induction k as [|k IH]; [done|].
  rewrite sampled_S_back, IH. unfold sample_pixels.
  destruct (Hp (S k + now d)%nat) as [-> ->].
  by rewrite <- replicate_S_end.
Qed.

(** X5: a source that shows the same colour in every tick, always in
    the active region, fills an empty frame in exactly 640*480 capture
    ticks, and every pixel of the frame is that colour expanded to 8
    bits; (7, 7, 3) gives an all-white frame. *)
Theorem capture_frame_solid (d : dut) (mode scene : Z) (p : pixel) :
  (forall t, active (pins d t) = true /\ decode (pins d t) = p) ->
  fst (capture_frame d mode scene init_default)
  = ClockCycles (aligned d mode scene) (Z.to_nat 307200)
  /\ pixels (snd (capture_frame d mode scene init_default))
     = replicate (Z.to_nat 307200) p.
Proof.
  intros Hp.
  assert (Hsampled : forall k, sampled (aligned d mode scene) k = replicate k p).
  { apply sampled_constant. intros t. rewrite aligned_pins. apply Hp. }
  assert (Hloop : capture_loop (Z.to_nat 500000) (aligned d mode scene) init_default
            = (ClockCycles (aligned d mode scene) (Z.to_nat 307200),
               set_pixels init_default
                 (pixels init_default
                  ++ sampled (aligned d mode scene) (Z.to_nat 307200)))).
  { apply capture_loop_stop; [lia| |].
    - intros k Hk. rewrite Hsampled, len_app. unfold len.
      rewrite length_replicate. cbn [pixels init_default init length]. lia.
    - rewrite Hsampled, len_app. unfold len.
      rewrite length_replicate. cbn [pixels init_default init length]. lia. }
  rewrite capture_frame_eq, capture_pixels_eq, Hloop. cbn [fst snd].
  split; [done|]. rewrite finalize_exact.
  - cbn [pixels set_pixels init_default init app]. apply Hsampled.
  - cbn [pixels set_pixels init_default init app]. rewrite Hsampled. unfold len.
    rewrite length_replicate. lia.
Qed.

Lemma capture_frame_solid_witness :
  fst (capture_frame white 0 0 init_default)
  = ClockCycles (aligned white 0 0) (Z.to_nat 307200)
  /\ pixels (snd (capture_frame white 0 0 init_default))
     = replicate (Z.to_nat 307200) (255, 255, 255).
Proof.
  apply (capture_frame_solid white 0 0 (255, 255, 255)).
  intros t. split; reflexivity.
Defined.

Lemma capture_frame_full_witness :
  fst (capture_frame ramp 0 0 (mkFrame 640 480 (replicate (Z.to_nat 307198) black)))
  = ClockCycles (aligned ramp 0 0) 5
  /\ pixels (snd (capture_frame ramp 0 0
                   (mkFrame 640 480 (replicate (Z.to_nat 307198) black))))
     = pixels (mkFrame 640 480 (replicate (Z.to_nat 307198) black))
       ++ sampled (aligned ramp 0 0) 5.
Proof.
  assert (Hsampled : len (sampled (aligned ramp 0 0) 4) = 1
                     /\ len (sampled (aligned ramp 0 0) 5) = 2)
    by (split; vm_compute; reflexivity).
  destruct Hsampled as [H4 H5].
  apply (capture_frame_full ramp 0 0
           (mkFrame 640 480 (replicate (Z.to_nat 307198) black)) 5).
  - lia.
  - cbn [Nat.pred pixels]. rewrite len_app, H4. unfold len.
    rewrite length_replicate. lia.
  - cbn [pixels]. rewrite len_app, H5. unfold len. rewrite length_replicate. lia.
Defined.

Lemma capture_loop_grows n : forall d fc,
  exists more, pixels (snd (capture_loop n d fc)) = pixels fc ++ more.
Proof.
  induction n as [|n IH]; intros d fc.
  - exists []. simpl. by rewrite app_nil_r.
  - cbn [capture_loop]. rewrite capture_tick_eq. destruct (_ >=? _).
    + by eexists.
    + destruct (IH (RisingEdge d)
        (set_pixels fc (pixels fc ++ sample_pixels (pins d (S (now d))))))
        as (more & ->).
      cbn [pixels set_pixels]. rewrite <- app_assoc. by eexists.
Qed.

Lemma len_sample_pixels s : 0 <= len (sample_pixels s) <= 1.
Proof. unfold sample_pixels. destruct (active s); unfold len; simpl; lia. Qed.

Lemma capture_loop_le n : forall d fc,
  len (pixels fc) < 640 * 480 ->
  len (pixels (snd (capture_loop n d fc))) <= 640 * 480.
Proof.
  induction n as [|n IH]; intros d fc Hshort; [simpl; lia|].
  cbn [capture_loop]. rewrite capture_tick_eq. cbn [pixels set_pixels].
  pose proof (len_sample_pixels (pins d (S (now d)))) as Hs.
  destruct (Z.geb_spec (len (pixels fc ++ sample_pixels (pins d (S (now d)))))
              (640 * 480)) as [Hfull|Hroom].
  - cbn [snd pixels set_pixels]. rewrite len_app in *. lia.
  - apply IH. exact Hroom.
Qed.

Lemma finalize_le fc :
  len (pixels fc) <= 640 * 480 ->
  pixels (truncate (pad fc))
  = pixels fc ++ replicate (Z.to_nat (640 * 480 - len (pixels fc))) black.
Proof.
  intros Hle. rewrite finalize_pixels. apply take_ge.
  rewrite length_app, length_replicate. unfold len in *. lia.
Qed.

(** X6: for a frame that is not full when [capture_frame] is called,
    the loop never collects more than 640*480 pixels, so the closing
    slice cuts nothing: the finished frame is what the frame held,
    followed by what the loop collected, followed by black padding. *)
Theorem capture_frame_keeps_collected (d : dut) (mode scene : Z)
    (fc : VGAFrameCapture) :
  len (pixels fc) < 640 * 480 ->
  exists collected : list pixel,
    pixels (snd (capture_loop (Z.to_nat 500000) (aligned d mode scene) fc))
    = pixels fc ++ collected
    /\ len (pixels fc ++ collected) <= 640 * 480
    /\ pixels (snd (capture_frame d mode scene fc))
       = pixels fc ++ collected
         ++ replicate (Z.to_nat (640 * 480 - len (pixels fc ++ collected))) black.
Proof.
  intros Hshort.
  destruct (capture_loop_grows (Z.to_nat 500000) (aligned d mode scene) fc)
    as (collected & Hacc).
  pose proof (capture_loop_le (Z.to_nat 500000) (aligned d mode scene) fc Hshort)
    as Hle.
  exists collected. split; [exact Hacc|]. rewrite Hacc in Hle. split; [exact Hle|].
  rewrite capture_frame_eq, capture_pixels_eq. cbn [snd].
  rewrite finalize_le by (by rewrite Hacc). by rewrite Hacc, <- app_assoc.
Qed.

Lemma ramp_prefilled_loop :
  capture_loop (Z.to_nat 500000) (aligned ramp 0 0)
    (mkFrame 640 480 (replicate (Z.to_nat 307198) black))
  = (ClockCycles (aligned ramp 0 0) 5,
     set_pixels (mkFrame 640 480 (replicate (Z.to_nat 307198) black))
       (pixels (mkFrame 640 480 (replicate (Z.to_nat 307198) black))
        ++ sampled (aligned ramp 0 0) 5)).
Proof.
  assert (Hsampled : len (sampled (aligned ramp 0 0) 4) = 1
                     /\ len (sampled (aligned ramp 0 0) 5) = 2)
    by (split; vm_compute; reflexivity).
  destruct Hsampled as [H4 H5].
  apply capture_loop_stop; [lia| |].
  - intros k Hk. cbn [pixels]. rewrite len_app.
    pose proof (len_sampled_mono (aligned ramp 0 0) k 4 ltac:(lia)) as Hmono.
    unfold len at 1. rewrite length_replicate. lia.
  - cbn [pixels]. rewrite len_app, H5. unfold len. rewrite length_replicate. lia.
Qed.

Lemma ramp_samples :
  sampled (aligned ramp 0 0) 5 = [(36, 109, 255); (72, 109, 255)].
Proof. vm_compute. reflexivity. Qed.

Lemma capture_frame_keeps_collected_witness :
  len (pixels (mkFrame 640 480 (replicate (Z.to_nat 307198) black))) < 640 * 480
  /\ pixels (snd (capture_loop (Z.to_nat 500000) (aligned ramp 0 0)
                   (mkFrame 640 480 (replicate (Z.to_nat 307198) black))))
     = pixels (mkFrame 640 480 (replicate (Z.to_nat 307198) black))
       ++ [(36, 109, 255); (72, 109, 255)]
  /\ (exists collected : list pixel,
        pixels (snd (capture_loop (Z.to_nat 500000) (aligned ramp 0 0)
                       (mkFrame 640 480 (replicate (Z.to_nat 307198) black))))
        = pixels (mkFrame 640 480 (replicate (Z.to_nat 307198) black)) ++ collected
        /\ len (pixels (mkFrame 640 480 (replicate (Z.to_nat 307198) black))
                ++ collected) <= 640 * 480
        /\ pixels (snd (capture_frame ramp 0 0
                         (mkFrame 640 480 (replicate (Z.to_nat 307198) black))))
           = pixels (mkFrame 640 480 (replicate (Z.to_nat 307198) black))
             ++ collected
             ++ replicate
                  (Z.to_nat
                     (640 * 480
                      - len (pixels (mkFrame 640 480
                                       (replicate (Z.to_nat 307198) black))
                             ++ collected)))
                  black).
Proof.
  assert (Hshort : len (pixels (mkFrame 640 480 (replicate (Z.to_nat 307198) black)))
                   < 640 * 480).
  { cbn [pixels]. unfold len. rewrite length_replicate. lia. }
  split; [exact Hshort|]. split.
  - rewrite ramp_prefilled_loop. cbn [snd pixels set_pixels]. by rewrite ramp_samples.
  - exact (capture_frame_keeps_collected ramp 0 0
             (mkFrame 640 480 (replicate (Z.to_nat 307198) black)) Hshort).
Defined.

(** X7: a frame that already holds 640*480 pixels or more is cut back
    to its first 640*480 pixels: [capture_frame] still reads one
    sample after the wait, but that sample never reaches the frame. *)
Theorem capture_frame_overfull (d : dut) (mode scene : Z) (fc : VGAFrameCapture) :
  640 * 480 <= len (pixels fc) ->
  fst (capture_frame d mode scene fc) = RisingEdge (aligned d mode scene)
  /\ pixels (snd (capture_frame d mode scene fc))
     = take (Z.to_nat (640 * 480)) (pixels fc).
Proof.
  intros Hfull.
  rewrite capture_frame_eq, capture_pixels_eq.
  destruct (Z.to_nat 500000) as [|n] eqn:Hn; [lia|].
  cbn [capture_loop]. rewrite capture_tick_eq. cbn [pixels set_pixels].
  pose proof (len_sample_pixels (pins (aligned d mode scene) (S (now (aligned d mode scene)))))
    as Hs.
  destruct (Z.geb_spec (len (pixels fc
              ++ sample_pixels (pins (aligned d mode scene)
                                  (S (now (aligned d mode scene))))))
              (640 * 480)) as [_|Hroom]; [|rewrite len_app in Hroom; lia].
  cbn [fst snd]. split; [done|].
  rewrite finalize_pixels. cbn [pixels set_pixels].
  rewrite <- app_assoc. apply take_app_le. unfold len in Hfull. lia.
Qed.

Lemma capture_frame_overfull_witness :
  fst (capture_frame ramp 0 0 (mkFrame 640 480 (replicate (Z.to_nat 307201) black)))
  = RisingEdge (aligned ramp 0 0)
  /\ pixels (snd (capture_frame ramp 0 0
                   (mkFrame 640 480 (replicate (Z.to_nat 307201) black))))
     = take (Z.to_nat (640 * 480))
         (pixels (mkFrame 640 480 (replicate (Z.to_nat 307201) black))).
Proof.
  apply (capture_frame_overfull ramp 0 0
           (mkFrame 640 480 (replicate (Z.to_nat 307201) black))).
  cbn [pixels]. unfold len. rewrite length_replicate. lia.
Defined.

Lemma land_ones_range v n : 0 <= n -> 0 <= Z.land v (Z.ones n) <= 2 ^ n - 1.
Proof.
  intros Hn. rewrite Z.land_ones by done.
  pose proof (Z.mod_pos_bound v (2 ^ n) ltac:(by apply Z.pow_pos_nonneg)). lia.
Qed.

Lemma decode_8bit s : pixel_8bit (decode s).
Proof.
  unfold decode, pixel_8bit.
  pose proof (land_ones_range (Z.shiftr (uo_out s) 2) 3 ltac:(lia)) as Hr.
  pose proof (land_ones_range (Z.shiftr (uo_out s) 5) 3 ltac:(lia)) as Hg.
  pose proof (land_ones_range (uio_out s) 2 ltac:(lia)) as Hb.
  change (Z.ones 3) with 7 in *. change (Z.ones 2) with 3 in *.
  repeat split; apply expand_spec_range; simpl in *; lia.
Qed.

Lemma capture_loop_8bit n : forall d fc,
  Forall pixel_8bit (pixels fc) ->
  Forall pixel_8bit (pixels (snd (capture_loop n d fc))).
Proof.
  induction n as [|n IH]; intros d fc Hfc; [done|].
  cbn [capture_loop]. rewrite capture_tick_eq.
  assert (Hstep : Forall pixel_8bit (pixels fc ++ sample_pixels (pins d (S (now d))))).
  { apply Forall_app. split; [done|]. unfold sample_pixels.
    destruct (active _); [|done]. apply Forall_singleton, decode_8bit. }
  destruct (_ >=? _); [done|]. by apply IH.
Qed.

(** X8: [capture_frame] keeps a frame within 8 bits per channel: if
    every pixel the frame held had channels in 0..255, so has every
    pixel of the finished frame, since samples are decoded from 3-, 3-
    and 2-bit fields and the padding is black.  A frame made by
    [VGAFrameCapture()] is empty, so its result is always in range. *)
Theorem capture_frame_8bit (d : dut) (mode scene : Z) (fc : VGAFrameCapture) :
  Forall pixel_8bit (pixels fc) ->
  Forall pixel_8bit (pixels (snd (capture_frame d mode scene fc))).
Proof.
  intros Hfc. rewrite capture_frame_eq, capture_pixels_eq. cbn [snd].
  rewrite finalize_pixels. apply Forall_take, Forall_app. split.
  - by apply capture_loop_8bit.
  - apply Forall_replicate. unfold pixel_8bit, black. lia.
Qed.

Lemma capture_frame_8bit_witness :
  Forall pixel_8bit (pixels (snd (capture_frame ramp 0 0 init_default))).
Proof. apply (capture_frame_8bit ramp 0 0 init_default). apply Forall_nil_2. Defined.

Lemma capture_loop_dims_free n : forall d fc w h,
  capture_loop n d (mkFrame w h (pixels fc))
  = (fst (capture_loop n d fc), mkFrame w h (pixels (snd (capture_loop n d fc)))).
Proof.
  induction n as [|n IH]; intros d fc w h; [done|].
  cbn [capture_loop]. rewrite !capture_tick_eq. cbn [pixels set_pixels width height].
  destruct (_ >=? _); [done|].
  apply (IH (RisingEdge d)
           (set_pixels fc (pixels fc ++ sample_pixels (pins d (S (now d))))) w h).
Qed.

(** X9: [capture_frame] works to the fixed size 640*480 and never
    looks at the frame's own [width] and [height]: two frames with the
    same pixels get the same pixels back whatever their dimensions, the
    dimensions are handed back unchanged, and so the 307200 pixels
    agree with [width * height] only if that product is 307200. *)
Theorem capture_frame_ignores_dims (d : dut) (mode scene : Z)
    (w h w' h' : Z) (ps : list pixel) :
  pixels (snd (capture_frame d mode scene (mkFrame w h ps)))
  = pixels (snd (capture_frame d mode scene (mkFrame w' h' ps)))
  /\ width (snd (capture_frame d mode scene (mkFrame w h ps))) = w
  /\ height (snd (capture_frame d mode scene (mkFrame w h ps))) = h
  /\ (len (pixels (snd (capture_frame d mode scene (mkFrame w h ps)))) = w * h
      <-> w * h = 307200).
Proof.
  assert (Hpix : forall w0 h0,
            pixels (snd (capture_frame d mode scene (mkFrame w0 h0 ps)))
            = pixels (snd (capture_frame d mode scene (mkFrame 0 0 ps)))).
  { intros w0 h0. rewrite !capture_frame_eq, !capture_pixels_eq. cbn [snd].
    rewrite !finalize_pixels.
    rewrite (capture_loop_dims_free _ _ (mkFrame 0 0 ps) w0 h0). done. }
  destruct (capture_frame_dims d mode scene (mkFrame w h ps)) as [Hw Hh].
  split; [by rewrite (Hpix w h), (Hpix w' h')|].
  split; [done|]. split; [done|].
  assert (Hlen : len (pixels (snd (capture_frame d mode scene (mkFrame w h ps))))
                 = 307200).
  { rewrite capture_frame_eq, capture_pixels_eq. apply finalize_len. }
  rewrite Hlen. lia.
Qed.

(** ** Further properties of the wait for frame sync *)

Lemma bit_0_or_1 v i : bit v i = 0 \/ bit v i = 1.
Proof. unfold bit. destruct (Z.testbit v i); simpl; auto. Qed.

(** One wait loop: [k] ticks with vsync at [level], and then either
    the other level or an exhausted counter. *)
Lemma wait_vsync_loop_spec level fuel : forall d timeout,
  (Z.to_nat (100000 - timeout) <= fuel)%nat ->
  exists k : nat,
    wait_vsync_loop level fuel d timeout = (ClockCycles d k, timeout + Z.of_nat k)
    /\ (forall j, (j < k)%nat -> vsync_at d j = level)
    /\ (timeout + Z.of_nat k < 100000 -> vsync_at d k <> level)
    /\ ((0 < k)%nat -> timeout + Z.of_nat k <= 100000).
Proof.
  induction fuel as [|fuel IH]; intros d timeout Hfuel.
  - exists 0%nat. simpl. rewrite ClockCycles_0, Z.add_0_r.
    split; [done|]. split; [lia|]. split; lia.
  - cbn [wait_vsync_loop].
    destruct (Z.eqb_spec (bit (uo_out_value d) 1) level) as [Heq|Hne];
      destruct (Z.ltb_spec timeout 100000) as [Hlt|Hge]; cbn [andb].
    + destruct (IH (RisingEdge d) (timeout + 1) ltac:(lia)) as (k & -> & Hall & Hexit & Hle).
      exists (S k). rewrite ClockCycles_RisingEdge.
      split; [f_equal; lia|]. split; [|split].
      * intros [|j] Hj; [exact Heq|]. specialize (Hall j ltac:(lia)).
        unfold vsync_at in *. simpl in Hall.
        by replace (S j + now d)%nat with (j + S (now d))%nat by lia.
      * intros Hk. specialize (Hexit ltac:(lia)).
        unfold vsync_at in *. simpl in Hexit.
        by replace (S k + now d)%nat with (k + S (now d))%nat by lia.
      * lia.
    + exists 0%nat. rewrite ClockCycles_0, Z.add_0_r.
      split; [done|]. split; [lia|]. split; lia.
    + exists 0%nat. rewrite ClockCycles_0, Z.add_0_r.
      split; [done|]. split; [lia|]. split; [|lia]. intros _. exact Hne.
    + exists 0%nat. rewrite ClockCycles_0, Z.add_0_r.
      split; [done|]. split; [lia|]. split; lia.
Qed.

(** X10: for every signal the wait for frame sync ends after [k1 + k2]
    ticks, at most 100000, which is also the value of its counter: [k1]
    ticks with vsync high, then [k2] ticks with vsync low.  If the
    budget was not used up, vsync was low for at least one tick and is
    high at the tick where the wait ends: capture starts on a rising
    edge of vsync. *)
Theorem wait_frame_sync_aligned (d : dut) :
  exists k1 k2 : nat,
    wait_frame_sync d = (ClockCycles d (k1 + k2), Z.of_nat (k1 + k2))
    /\ Z.of_nat (k1 + k2) <= 100000
    /\ (forall j, (j < k1)%nat -> vsync_at d j = 1)
    /\ (forall j, (k1 <= j < k1 + k2)%nat -> vsync_at d j = 0)
    /\ (Z.of_nat (k1 + k2) < 100000 ->
        (0 < k2)%nat /\ vsync_at d (k1 + k2) = 1).
Proof.
  unfold wait_frame_sync, wait_vsync.
  destruct (wait_vsync_loop_spec 1 (Z.to_nat (100000 - 0)) d 0 ltac:(lia))
    as (k1 & -> & Hhigh & Hexit1 & Hle1).
  destruct (wait_vsync_loop_spec 0 (Z.to_nat (100000 - (0 + Z.of_nat k1)))
              (ClockCycles d k1) (0 + Z.of_nat k1) ltac:(lia))
    as (k2 & -> & Hlow & Hexit2 & Hle2).
  assert (Hshift : forall j, vsync_at (ClockCycles d k1) j = vsync_at d (k1 + j)).
  { intros j. unfold vsync_at. simpl. do 3 f_equal. lia. }
  exists k1, k2. split.
  { f_equal; [|lia]. unfold ClockCycles. simpl. f_equal. lia. }
  split; [lia|]. split; [exact Hhigh|]. split.
  { intros j Hj. replace j with (k1 + (j - k1))%nat by lia.
    rewrite <- Hshift. apply Hlow. lia. }
  intros Hbudget.
  specialize (Hexit1 ltac:(lia)). specialize (Hexit2 ltac:(lia)).
  rewrite Hshift in Hexit2.
  assert (Hk1 : vsync_at d k1 = 0)
    by (destruct (bit_0_or_1 (uo_out (pins d (k1 + now d)%nat)) 1); done).
  split.
  - destruct k2 as [|k2]; [|lia]. rewrite Nat.add_0_r in Hexit2. done.
  - destruct (bit_0_or_1 (uo_out (pins d (k1 + k2 + now d)%nat)) 1); done.
Qed.

(** ** [test_modes] *)

Lemma collect_rgb_spec n : forall d (s : gset (Z * Z * Z)),
  fst (collect_rgb n d s) = ClockCycles d n
  /\ s ⊆ snd (collect_rgb n d s)
  /\ (0 < n -> exists c, c ∈ snd (collect_rgb n d s))%nat
  /\ (size (snd (collect_rgb n d s)) <= size s + n)%nat.
Proof.
  induction n as [|n IH]; intros d s.
  - simpl. rewrite ClockCycles_0. split; [done|]. split; [done|]. split; lia.
  - cbn [collect_rgb].
    set (c := (Z.land (Z.shiftr (uo_out_value (RisingEdge d)) 2) 7,
               Z.land (Z.shiftr (uo_out_value (RisingEdge d)) 5) 7,
               Z.land (uio_out_value (RisingEdge d)) 3)).
    destruct (IH (RisingEdge d) ({[ c ]} ∪ s)) as (Hd & Hsub & _ & Hsize).
    rewrite Hd, ClockCycles_RisingEdge. split; [done|]. split; [|split].
    + etrans; [apply (union_subseteq_r {[ c ]})|exact Hsub].
    + intros _. exists c. apply Hsub, elem_of_union_l, elem_of_singleton. done.
    + etrans; [exact Hsize|]. rewrite size_union_alt, size_singleton.
      pose proof (subseteq_size (s ∖ {[c]}) s) as Hdiff.
      specialize (Hdiff ltac:(by apply subseteq_difference_l)). lia.
Qed.

Lemma collect_rgb_nonempty n d :
  (0 < n)%nat -> (Z.of_nat (size (snd (collect_rgb n d ∅))) >? 0) = true.
Proof.
  intros Hn. destruct (collect_rgb_spec n d ∅) as (_ & _ & Hex & _).
  destruct (Hex Hn) as (c & Hc).
  assert (size (snd (collect_rgb n d ∅)) <> 0%nat)
    by (by eapply size_non_empty_iff, non_empty_inhabited).
  lia.
Qed.

Lemma test_modes_loop_passes ms : forall d,
  exists d', test_modes_loop ms d = (d', Passed)
    /\ now d' = (210 * length ms + now d)%nat /\ pins d' = pins d.
Proof.
  induction ms as [|[mode_val mode_name] ms IH]; intros d.
  - exists d. simpl. auto.
  - cbn [test_modes_loop].
    set (d1 := ClockCycles _ 100).
    destruct (collect_rgb 100 d1 ∅) as [d2 rgb] eqn:Hcollect.
    pose proof (collect_rgb_nonempty 100 d1 ltac:(lia)) as Hpos.
    destruct (collect_rgb_spec 100 d1 ∅) as (Hd2 & _).
    rewrite Hcollect in Hpos, Hd2. cbn [fst snd] in Hpos, Hd2. rewrite Hpos.
    destruct (IH d2) as (d' & -> & Hnow & Hpins).
    exists d'. split; [done|]. rewrite Hnow, Hpins, Hd2. subst d1.
    split; [simpl; lia|done].
Qed.

(** X11: [test_modes] cannot fail.  Its only assertion asks for at
    least one colour among 100 samples, and a set that 100 samples
    were added to is never empty; so for every design the test passes,
    after 4 * 210 = 840 clock edges.  Between 1 and 100 colours are
    seen per mode. *)
Theorem test_modes_always_passes (d : dut) :
  snd (test_modes d) = Passed
  /\ now (fst (test_modes d)) = (840 + now d)%nat
  /\ (forall d0 : dut,
        1 <= Z.of_nat (size (snd (collect_rgb 100 d0 ∅))) <= 100).
Proof.
  unfold test_modes.
  destruct (test_modes_loop_passes modes d) as (d' & -> & Hnow & _).
  split; [done|]. split; [exact Hnow|].
  intros d0. pose proof (collect_rgb_nonempty 100 d0 ltac:(lia)) as Hpos.
  destruct (collect_rgb_spec 100 d0 ∅) as (_ & _ & _ & Hsize).
  rewrite size_empty in Hsize. lia.
Qed.

(** ** Further properties of the raster writer *)

Lemma makedirs_keeps name fs fs1 r :
  Os.makedirs name fs = (fs1, r) ->
  Os.cwd fs1 = Os.cwd fs
  /\ forall l n, Os.node_at fs l = Some n -> Os.node_at fs1 l = Some n.
Proof.
  unfold Os.makedirs. destruct (String.eqb name "").
  { intros H. by injection H as <- <-. }
  destruct (Os.node_at fs (Os.start fs name)) as [[|data]|];
    try (intros H; by injection H as <- <-).
  apply make_path_keeps.
Qed.

(** X12: [save_ppm] never removes anything and never changes a file
    other than the one its path names: whatever its outcome, the
    working directory is the same, every directory is still a
    directory, and every file still has its content unless it is the
    file that the path resolves to. *)
Theorem save_ppm_keeps_others (self : VGAFrameCapture) (filename : string)
    (fs : Os.filesystem) :
  Os.cwd (fst (save_ppm self filename fs)) = Os.cwd fs
  /\ (forall l, Os.node_at fs l = Some Os.Dir ->
        Os.node_at (fst (save_ppm self filename fs)) l = Some Os.Dir)
  /\ (forall l data, Os.node_at fs l = Some (Os.File data) ->
        Os.node_at (fst (save_ppm self filename fs)) l = Some (Os.File data)
        \/ Os.walk (fst (save_ppm self filename fs))
             (Os.start (fst (save_ppm self filename fs)) filename)
             (Os.components filename) = Ok l).
Proof.
  destruct (save_ppm_cases self filename fs)
    as [(fs1 & e & H1 & ->)|[(fs1 & e & H1 & H2 & ->)|(fs1 & fs2 & f & H1 & H2 & ->)]];
    cbn [fst]; destruct (makedirs_keeps _ _ _ _ H1) as [Hcwd Hkeep].
  - split; [done|]. split; [by auto|]. intros l data Hl. left. by apply Hkeep.
  - split; [done|]. split; [by auto|]. intros l data Hl. left. by apply Hkeep.
  - destruct (open_w_ok _ _ _ _ H2) as (_ & Hwalk & _ & Hnode & _).
    split; [done|]. split.
    + intros l Hl. apply Hkeep in Hl. rewrite node_at_put_ne; [done|congruence].
    + intros l data Hl. apply Hkeep in Hl.
      destruct (decide (l = f)) as [->|Hne].
      * right. rewrite (start_cwd fs1) by done. by apply walk_put_file.
      * left. by rewrite node_at_put_ne.
Qed.

Lemma save_ppm_ok_read self filename fs :
  snd (save_ppm self filename fs) = Ok tt ->
  Os.read (fst (save_ppm self filename fs)) filename = Some (ppm_text self).
Proof.
  destruct (save_ppm_cases self filename fs)
    as [(fs1 & e & H1 & ->)|[(fs1 & e & H1 & H2 & ->)|(fs1 & fs2 & f & H1 & H2 & ->)]];
    cbn [fst snd]; try done.
  intros Hok%written_ok. rewrite Hok. by eapply read_after_open.
Qed.

Lemma body_text_rows w rows :
  0 < w -> Forall (fun row => len row = w) rows ->
  body_text w (concat rows) = concat_text (row_text <$> rows).
Proof.
  intros Hw. induction 1 as [|row rows Hrow _ IH]; [reflexivity|].
  cbn [concat fmap list_fmap concat_text foldr].
  fold (concat_text (row_text <$> rows)).
  rewrite (body_text_row w row (concat rows) Hw Hrow), IH.
  unfold row_text. by rewrite str_app_assoc.
Qed.

(** X13: a frame whose pixels are full rows of [width] pixels each is
    saved as the three header lines followed by one text line per row,
    each line holding the row's triples in order and ending in a line
    break; a 640 by 480 frame gives 480 such lines. *)
Theorem save_ppm_rows (self : VGAFrameCapture) (filename : string)
    (fs : Os.filesystem) (rows : list (list pixel)) :
  0 < width self ->
  pixels self = concat rows ->
  Forall (fun row => len row = width self) rows ->
  snd (save_ppm self filename fs) = Ok tt ->
  Os.read (fst (save_ppm self filename fs)) filename
  = Some (header_text (width self) (height self)
          +:+ concat_text (row_text <$> rows))
  /\ len rows * width self = len (pixels self).
Proof.
  intros Hw Hpixels Hrows Hok. split.
  - rewrite (save_ppm_ok_read _ _ _ Hok). unfold ppm_text.
    by rewrite Hpixels, body_text_rows.
  - rewrite Hpixels. clear Hpixels Hok.
    induction Hrows as [|row rows Hrow _ IH]; [reflexivity|].
    cbn [concat]. rewrite len_app, <- IH, Hrow. unfold len. simpl length. lia.
Qed.

Lemma save_ppm_rows_witness :
  Os.read (fst (save_ppm (mkFrame 2 2 [(1, 2, 3); (4, 5, 6); (7, 8, 9); (0, 0, 0)])
                  "out/f.ppm" empty_fs)) "out/f.ppm"
  = Some (header_text 2 2
          +:+ concat_text (row_text <$> [[(1, 2, 3); (4, 5, 6)]; [(7, 8, 9); (0, 0, 0)]]))
  /\ len [[(1, 2, 3); (4, 5, 6)]; [(7, 8, 9); (0, 0, 0)]] * 2
     = len [(1, 2, 3); (4, 5, 6); (7, 8, 9); (0, 0, 0)].
Proof.
  apply (save_ppm_rows (mkFrame 2 2 [(1, 2, 3); (4, 5, 6); (7, 8, 9); (0, 0, 0)])
           "out/f.ppm" empty_fs [[(1, 2, 3); (4, 5, 6)]; [(7, 8, 9); (0, 0, 0)]]).
  - simpl. lia.
  - reflexivity.
  - repeat constructor.
  - reflexivity.
Defined.

(** X14: what [save_ppm] does at the edges, once the directory exists
    and the file is open.  An empty pixel list gives a file of the
    three header lines for any width, zero included, since the
    remainder is never taken.  With pixels and a width of zero the
    header and the first triple are written, [ZeroDivisionError] is
    raised, and the truncated file stays behind. *)
Theorem save_ppm_width_zero (self : VGAFrameCapture) (filename : string)
    (fs fs1 fs2 : Os.filesystem) (f : Os.location) :
  Os.makedirs (Os.path_dirname filename) fs = (fs1, Ok tt) ->
  Os.open_w filename fs1 = (fs2, Ok f) ->
  (pixels self = [] ->
     save_ppm self filename fs
     = (Os.put fs1 f (Os.File (header_text (width self) (height self))), Ok tt))
  /\ (forall p ps, width self = 0 -> pixels self = p :: ps ->
        save_ppm self filename fs
        = (Os.put fs1 f
             (Os.File (header_text 0 (height self) +:+ triple_text p)),
           Raise ZeroDivisionError)
        /\ Os.read (fst (save_ppm self filename fs)) filename
           = Some (header_text 0 (height self) +:+ triple_text p)).
Proof.
  intros H1 H2. rewrite (save_ppm_run self _ _ _ _ _ H1 H2). unfold written. split.
  - intros Hempty. unfold ppm_text, body_text. rewrite Hempty.
    cbn [fst snd imap concat_text foldr]. by rewrite str_app_nil_r.
  - intros p ps Hw ->. rewrite Hw. cbn [Z.eqb fst snd]. split; [done|].
    by eapply read_after_open.
Qed.

Lemma save_ppm_width_zero_witness :
  save_ppm (mkFrame 0 7 [(9, 8, 7); (1, 1, 1)]) "out/z.ppm" empty_fs
  = (Os.put (Os.put empty_fs ["out"] Os.Dir) ["z.ppm"; "out"]
       (Os.File (header_text 0 (height (mkFrame 0 7 [(9, 8, 7); (1, 1, 1)]))
                 +:+ triple_text (9, 8, 7))),
     Raise ZeroDivisionError)
  /\ Os.read (fst (save_ppm (mkFrame 0 7 [(9, 8, 7); (1, 1, 1)]) "out/z.ppm" empty_fs))
       "out/z.ppm"
     = Some (header_text 0 (height (mkFrame 0 7 [(9, 8, 7); (1, 1, 1)]))
             +:+ triple_text (9, 8, 7)).
Proof.
  refine (proj2 (save_ppm_width_zero (mkFrame 0 7 [(9, 8, 7); (1, 1, 1)]) "out/z.ppm"
                   empty_fs (Os.put empty_fs ["out"] Os.Dir)
                   (Os.put (Os.put empty_fs ["out"] Os.Dir) ["z.ppm"; "out"] (Os.File ""))
                   ["z.ppm"; "out"] _ _) (9, 8, 7) [(1, 1, 1)] _ _); reflexivity.
Defined.

(** ** [test_vga_signals] *)

Lemma toggles_bounds (values : list Z) :
  0 <= toggles values <= Z.max 0 (len values - 1).
Proof.
  unfold toggles, len.
  pose proof (length_filter (fun i => values !! i <> values !! S i)
                (seq 0 (length values - 1))) as Hle.
  rewrite length_seq in Hle. lia.
Qed.

Lemma toggles_zero_adjacent (values : list Z) :
  toggles values = 0
  <-> forall i, (S i < length values)%nat -> values !! i = values !! S i.
Proof.
  unfold toggles, len. split.
  - intros Hzero i Hi.
    destruct (decide (values !! i = values !! S i)) as [|Hne]; [done|].
    assert (Hin : i ∈ filter (fun i => values !! i <> values !! S i)
                      (seq 0 (length values - 1))).
    { apply list_elem_of_filter. split; [done|]. apply elem_of_seq. lia. }
    destruct (filter _ _) as [|x xs]; [by apply elem_of_nil in Hin|].
    simpl in Hzero. lia.
  - intros Hadj.
    assert (Hnil : filter (fun i => values !! i <> values !! S i)
                     (seq 0 (length values - 1)) = []).
    { apply elem_of_nil_inv. intros i [Hne Hin]%list_elem_of_filter.
      apply elem_of_seq in Hin. apply Hne, Hadj. lia. }
    by rewrite Hnil.
Qed.

(** No toggle means one value throughout. *)
Lemma toggles_zero_iff (values : list Z) :
  toggles values = 0
  <-> forall i j x y, values !! i = Some x -> values !! j = Some y -> x = y.
Proof.
  rewrite toggles_zero_adjacent. split.
  - intros Hadj.
    assert (Hfirst : forall i x, values !! i = Some x -> values !! 0%nat = Some x).
    { induction i as [|i IH]; intros x Hi; [done|].
      pose proof (lookup_lt_Some _ _ _ Hi) as Hlt.
      apply IH. by rewrite Hadj. }
    intros i j x y Hi Hj. apply Hfirst in Hi, Hj. congruence.
  - intros Hall i Hi.
    destruct (lookup_lt_is_Some_2 values i ltac:(lia)) as [x Hx].
    destruct (lookup_lt_is_Some_2 values (S i) ltac:(lia)) as [y Hy].
    rewrite Hx, Hy. f_equal. by eapply Hall.
Qed.

Lemma sample_sync_eq n : forall d hs vs,
  sample_sync n d hs vs
  = (ClockCycles d n,
     (hs ++ ((fun k => bit (uo_out (pins d (k + now d)%nat)) 0) <$> seq 1 n),
      vs ++ ((fun k => bit (uo_out (pins d (k + now d)%nat)) 1) <$> seq 1 n))).
Proof.
  induction n as [|n IH]; intros d hs vs.
  - simpl. by rewrite ClockCycles_0, !app_nil_r.
  - cbn [sample_sync]. rewrite IH, ClockCycles_RisingEdge.
    rewrite <- !app_assoc. cbn [seq fmap list_fmap app].
    rewrite <- !seq_shift, <- !list_fmap_compose. unfold uo_out_value.
    f_equal. f_equal; f_equal; f_equal.
    + apply list_fmap_ext. intros _ k _. simpl. do 3 f_equal. lia.
    + apply list_fmap_ext. intros _ k _. simpl. do 3 f_equal. lia.
Qed.

Lemma toggles_samples (f : nat -> Z) (n : nat) :
  0 <= toggles (f <$> seq 1 n) <= Z.max 0 (Z.of_nat n - 1)
  /\ (toggles (f <$> seq 1 n) = 0
      <-> forall k, (1 <= k <= n)%nat -> f k = f 1%nat).
Proof.
  split.
  - pose proof (toggles_bounds (f <$> seq 1 n)) as Hb.
    unfold len in Hb. rewrite length_fmap, length_seq in Hb. exact Hb.
  - rewrite toggles_zero_iff. split.
    + intros Hall k Hk.
      apply (Hall (k - 1)%nat 0%nat).
      * rewrite list_lookup_fmap, lookup_seq_lt by lia. simpl. do 2 f_equal. lia.
      * rewrite list_lookup_fmap, lookup_seq_lt by lia. done.
    + intros Hconst i j x y Hi Hj.
      rewrite list_lookup_fmap in Hi, Hj.
      destruct (seq 1 n !! i) as [a|] eqn:Ha; [|done].
      destruct (seq 1 n !! j) as [b|] eqn:Hb; [|done].
      apply lookup_seq in Ha as [-> ?]. apply lookup_seq in Hb as [-> ?].
      cbn [fmap option_fmap option_map] in Hi, Hj.
      injection Hi as <-. injection Hj as <-.
      transitivity (f 1%nat); [|symmetry]; apply Hconst; lia.
Qed.

(** X15: [test_vga_signals] samples the sync lines at the 1000 clock
    edges that follow the 110 edges of its reset sequence.  Each of the
    two toggle counts it logs lies between 0 and 999, and it is 0, the
    case logged as not toggling, exactly when that line read the same
    value at all 1000 samples. *)
Theorem test_vga_signals_toggles (d : dut) :
  now (fst (test_vga_signals d)) = (1110 + now d)%nat
  /\ 0 <= fst (snd (test_vga_signals d)) <= 999
  /\ 0 <= snd (snd (test_vga_signals d)) <= 999
  /\ (fst (snd (test_vga_signals d)) = 0
      <-> forall k, (1 <= k <= 1000)%nat ->
            bit (uo_out (pins d (k + (110 + now d))%nat)) 0
            = bit (uo_out (pins d (1 + (110 + now d))%nat)) 0)
  /\ (snd (snd (test_vga_signals d)) = 0
      <-> forall k, (1 <= k <= 1000)%nat ->
            bit (uo_out (pins d (k + (110 + now d))%nat)) 1
            = bit (uo_out (pins d (1 + (110 + now d))%nat)) 1).
Proof.
  unfold test_vga_signals. rewrite sample_sync_eq. cbn [fst snd app].
  set (d1 := ClockCycles _ 100).
  assert (Hnow : now d1 = (110 + now d)%nat) by (subst d1; simpl; lia).
  assert (Hpins : pins d1 = pins d) by done.
  rewrite Hnow, Hpins.
  destruct (toggles_samples
              (fun k => bit (uo_out (pins d (k + (110 + now d))%nat)) 0) 1000)
    as [Hb0 Hz0].
  destruct (toggles_samples
              (fun k => bit (uo_out (pins d (k + (110 + now d))%nat)) 1) 1000)
    as [Hb1 Hz1].
  split; [simpl; lia|]. split; [lia|]. split; [lia|]. split; [exact Hz0|exact Hz1].
Qed.
